(** * Clipton: a clipboard history manager (clipton.py)

    A shallow embedding of [clipton.py]: the text helpers of [Utils], the
    [Converters], the item store [Items], the Rofi dispatcher [Rofi.show],
    the [Watcher] loop and [main].

    Python strings are modelled as Rocq [string]s of ASCII characters; the
    character classes of Python's [str.isspace], [\w] and [\d] are taken on
    the ASCII range. *)

From Stdlib Require Import String Ascii List ZArith Bool Lia.
From Stdlib Require Import DecimalString.
Import ListNotations.

Open Scope Z_scope.

(* ------------------------------------------------------------------ *)
(** ** Characters and strings *)

(** [str.isspace] on one ASCII character: \t \n \v \f \r, the separators
    \x1c..\x1f and the space. *)
Definition is_space (c : ascii) : bool :=
  let n := nat_of_ascii c in
  ((9 <=? n) && (n <=? 13))%nat || ((28 <=? n) && (n <=? 32))%nat.

(** [Utils.space]: [any(char.isspace() for char in text)]. *)
Fixpoint space (s : string) : bool :=
  match s with
  | EmptyString => false
  | String c s' => is_space c || space s'
  end.

(** [str.rstrip()]. *)
Fixpoint rstrip (s : string) : string :=
  match s with
  | EmptyString => EmptyString
  | String c s' =>
      let r := rstrip s' in
      if String.eqb r EmptyString && is_space c then EmptyString else String c r
  end.

(** [str.lstrip()]. *)
Fixpoint lstrip (s : string) : string :=
  match s with
  | EmptyString => EmptyString
  | String c s' => if is_space c then lstrip s' else s
  end.

(** [str.strip()]. *)
Definition strip (s : string) : string := rstrip (lstrip s).

(** [text.count("\n")]. *)
Fixpoint count_nl (s : string) : Z :=
  match s with
  | EmptyString => 0
  | String c s' => (if Ascii.eqb c "010"%char then 1 else 0) + count_nl s'
  end.

(** [s.startswith(p)]: [String.prefix]. [strip_prefix p s] is the rest of
    [s] after the prefix [p], if [s] starts with it. *)
Fixpoint strip_prefix (p s : string) : option string :=
  match p, s with
  | EmptyString, _ => Some s
  | String a p', String b s' => if Ascii.eqb a b then strip_prefix p' s' else None
  | String _ _, EmptyString => None
  end.

(** Longest prefix of characters in a class (a greedy [+] or [*] in a
    regular expression), and the rest. *)
Fixpoint span (p : ascii -> bool) (s : string) : string * string :=
  match s with
  | EmptyString => (EmptyString, EmptyString)
  | String c s' =>
      if p c then let (w, r) := span p s' in (String c w, r)
      else (EmptyString, s)
  end.

(** [\d] on ASCII. *)
Definition is_digit (c : ascii) : bool :=
  let n := nat_of_ascii c in ((48 <=? n) && (n <=? 57))%nat.

(** [[\w-]] on ASCII: letters, digits, the underscore and the hyphen. *)
Definition is_word_dash (c : ascii) : bool :=
  let n := nat_of_ascii c in
  is_digit c || ((65 <=? n) && (n <=? 90))%nat || ((97 <=? n) && (n <=? 122))%nat
  || (n =? 95)%nat || (n =? 45)%nat.

(** [regex.search(text)]: the first position where [match_at] succeeds. *)
Fixpoint search {A} (match_at : string -> option A) (s : string) : option A :=
  match match_at s with
  | Some m => Some m
  | None =>
      match s with
      | EmptyString => None
      | String _ s' => search match_at s'
      end
  end.

(* ------------------------------------------------------------------ *)
(** ** Converters *)

(** Groups 1, 2 and 3 of a match of
    [r'https://youtu.be/([\w-]+)(\?t=([\d]+))?'] anchored at the start of
    [s]. The unescaped [.] matches any character but a newline; [[\w-]+] is
    greedy and what follows it cannot fail, so it takes the longest run; the
    optional group is tried first. *)
Definition youtu_be_match (s : string) : option (string * option string * option string) :=
  match strip_prefix "https://youtu" s with
  | Some (String c r1) =>
      if Ascii.eqb c "010"%char then None else
      match strip_prefix "be/" r1 with
      | Some r2 =>
          let (w, r3) := span is_word_dash r2 in
          if String.eqb w EmptyString then None else
          match strip_prefix "?t=" r3 with
          | Some r4 =>
              let (d, _) := span is_digit r4 in
              if String.eqb d EmptyString then Some (w, None, None)
              else Some (w, Some ("?t=" ++ d)%string, Some d)
          | None => Some (w, None, None)
          end
      | None => None
      end
  | _ => None
  end.

(** [Converters.youtu_be]. *)
Definition youtu_be (text : string) : string :=
  if space text then EmptyString else
  match search youtu_be_match text with
  | Some (video_id, timestamp, _) =>
      if String.eqb video_id EmptyString then EmptyString else
      match timestamp with
      | Some ts =>
          if String.eqb ts EmptyString
          then ("https://www.youtube.com/watch?v=" ++ video_id)%string
          else ("https://www.youtube.com/watch?v=" ++ video_id ++ "&t=" ++ ts ++ "s")%string
      | None => ("https://www.youtube.com/watch?v=" ++ video_id)%string
      end
  | None => EmptyString
  end.

(** Groups 2 and 3 of a match of
    [r"https://music\.youtube\.com/(watch\?v=([\w-]+)|playlist\?list=([\w-]+))"]
    anchored at the start of [s]; the left alternative is tried first. *)
Definition youtube_music_match (s : string) : option (option string * option string) :=
  match strip_prefix "https://music.youtube.com/" s with
  | Some r =>
      let watch :=
        match strip_prefix "watch?v=" r with
        | Some r' => let (w, _) := span is_word_dash r' in
                     if String.eqb w EmptyString then None else Some (Some w, None)
        | None => None
        end in
      match watch with
      | Some m => Some m
      | None =>
          match strip_prefix "playlist?list=" r with
          | Some r' => let (w, _) := span is_word_dash r' in
                       if String.eqb w EmptyString then None else Some (None, Some w)
          | None => None
          end
      end
  | None => None
  end.

(** [Converters.youtube_music]. *)
Definition youtube_music (text : string) : string :=
  if space text then EmptyString else
  match search youtube_music_match text with
  | Some (Some video_id, _) =>
      if String.eqb video_id EmptyString then EmptyString
      else ("https://www.youtube.com/watch?v=" ++ video_id)%string
  | Some (None, Some playlist_id) =>
      if String.eqb playlist_id EmptyString then EmptyString
      else ("https://www.youtube.com/playlist?list=" ++ playlist_id)%string
  | _ => EmptyString
  end.

(* ------------------------------------------------------------------ *)
(** ** Settings, items and the program state *)

(** [Settings] after [Settings.read]; [converters] is flattened to its two
    known keys. *)
Record settings := mkSettings {
  max_items : Z;
  heavy_paste : Z;
  enable_titles : bool;
  enable_converters : bool;
  reverse_join : bool;
  conv_youtu_be : bool;
  conv_youtube_music : bool
}.

(** The defaults of [Settings.read] on an empty settings file. *)
Definition default_settings : settings :=
  mkSettings 2000 5000 true true false true true.

(** [Item]. *)
Record item := mkItem {
  text : string;
  date : Z;
  num_lines : Z;
  title : string
}.

(** The external ports the store code calls:
    - [env_now]: [Utils.get_seconds()];
    - [env_url_type url]: [Utils.get_url_type], which catches every error
      and answers ["none"] then;
    - [env_fetch_title url]: the body of the [else] branch of
      [Utils.get_title], [urlopen(text).read().decode("utf-8")] fed to the
      [TitleParser]: [Some title], or [None] when it raises. *)
Record env := mkEnv {
  env_now : Z;
  env_url_type : string -> string;
  env_fetch_title : string -> option string
}.

(** Python exceptions that can escape the modelled functions. *)
Inductive exn :=
| ExnTitle        (* raised inside the page fetch of [Utils.get_title] *)
| ExnIndex.       (* [IndexError] from [del Items.items[index]] / [Items.items[index]] *)

(** The mutable state the code reads and writes: the global list
    [Items.items], the content of the items file (the list last passed to
    [Items.write]) with the number of writes, the texts copied to the
    clipboard (latest first) and the [-selected-row] of each Rofi menu
    opened (latest first). *)
Record world := mkWorld {
  items : list item;
  disk : list item;
  writes : nat;
  copied : list string;
  menus : list Z
}.

(** A state and exception monad: an exception keeps the mutations done
    before it, as in Python. *)
Inductive result (A : Type) :=
| Ok (a : A)
| Raise (e : exn).
Arguments Ok {A} a.
Arguments Raise {A} e.

Definition M (A : Type) := world -> result A * world.

Definition ret {A} (a : A) : M A := fun w => (Ok a, w).
Definition raise {A} (e : exn) : M A := fun w => (Raise e, w).
Definition bind {A B} (m : M A) (k : A -> M B) : M B :=
  fun w => match m w with
           | (Ok a, w') => k a w'
           | (Raise e, w') => (Raise e, w')
           end.

Notation "x <- m ;; k" := (bind m (fun x => k))
  (at level 61, m at next level, right associativity).
Notation "m ;;; k" := (bind m (fun _ => k))
  (at level 61, right associativity).

Definition get_items : M (list item) := fun w => (Ok (items w), w).
Definition set_items (l : list item) : M unit :=
  fun w => (Ok tt, mkWorld l (disk w) (writes w) (copied w) (menus w)).

(** [Items.write]: the whole list is written to the items file. *)
Definition write : M unit :=
  fun w => (Ok tt, mkWorld (items w) (items w) (S (writes w)) (copied w) (menus w)).

(** [Utils.copy_text]. *)
Definition copy_text (s : string) : M unit :=
  fun w => (Ok tt, mkWorld (items w) (disk w) (writes w) (s :: copied w) (menus w)).

(* ------------------------------------------------------------------ *)
(** ** Python list operations *)

(** [l[0:m]]: a negative stop counts from the end. *)
Definition slice_to {A} (l : list A) (m : Z) : list A :=
  if 0 <=? m then firstn (Z.to_nat m) l
  else firstn (List.length l - Z.to_nat (- m)) l.

(** Bound of a slice [l[i:j]] for a list of length [n]. *)
Definition slice_bound (i : Z) (n : nat) : nat :=
  if i <? 0 then Z.to_nat (Z.of_nat n + i) else Nat.min (Z.to_nat i) n.

(** [l[i:j]]. *)
Definition slice {A} (l : list A) (i j : Z) : list A :=
  let a := slice_bound i (List.length l) in
  let b := slice_bound j (List.length l) in
  firstn (b - a) (skipn a l).

(** [del l[i:j]]. *)
Definition del_slice {A} (l : list A) (i j : Z) : list A :=
  let a := slice_bound i (List.length l) in
  let b := slice_bound j (List.length l) in
  firstn a l ++ skipn (Nat.max a b) l.

(** The position [l[i]] refers to, if it is in range. *)
Definition py_index {A} (l : list A) (i : Z) : option nat :=
  let n := Z.of_nat (List.length l) in
  let k := if i <? 0 then i + n else i in
  if (0 <=? k) && (k <? n) then Some (Z.to_nat k) else None.

(** [for item in l: if p(item): l.remove(item); break]: the first item
    satisfying [p] and the list without it. [Item] has no [__eq__], so
    [remove] removes that very object, the first one with this identity. *)
Fixpoint take_first {A} (p : A -> bool) (l : list A) : option (A * list A) :=
  match l with
  | [] => None
  | x :: l' =>
      if p x then Some (x, l')
      else match take_first p l' with
           | Some (y, r) => Some (y, x :: r)
           | None => None
           end
  end.

(* ------------------------------------------------------------------ *)
(** ** The item store *)

Section Store.
Variable cfg : settings.
Variable E : env.

(** [Utils.get_title]. *)
Definition get_title (t : string) : M string :=
  match strip_prefix "https://" t with
  | Some _ =>
      if negb (space t) then
        if String.eqb (env_url_type E t) "text/html" then
          match env_fetch_title E t with
          | Some ti => ret ti
          | None => raise ExnTitle
          end
        else ret EmptyString
      else ret EmptyString
  | None => ret EmptyString
  end.

(** [Item.from_text]. *)
Definition from_text (t title0 : string) : item :=
  mkItem t (env_now E) (count_nl t + 1) title0.

(** The three early returns of [Items.add], on the right-trimmed text:
    [true] when the text is kept. *)
Definition accepted (t : string) : bool :=
  negb (String.eqb t EmptyString)
  && negb (String.prefix "file://" t)
  && (Z.of_nat (String.length t) <=? heavy_paste cfg).

(** [Items.add]. *)
Definition add (text0 : string) : M unit :=
  let t := rstrip text0 in
  if String.eqb t EmptyString then ret tt else
  if String.prefix "file://" t then ret tt else
  if Z.of_nat (String.length t) >? heavy_paste cfg then ret tt else
  l <- get_items ;;
  the_item <-
    (match take_first (fun it => String.eqb (text it) t) l with
     | Some (it, rest) => set_items rest ;;; ret it
     | None =>
         title0 <- (if enable_titles cfg then get_title t else ret EmptyString) ;;
         ret (from_text t title0)
     end) ;;
  l' <- get_items ;;
  set_items (slice_to (the_item :: l') (max_items cfg)) ;;;
  write.

(** [Converters.convert]. *)
Definition convert (t : string) : string :=
  let n0 := EmptyString in
  let n1 := if String.eqb n0 EmptyString && conv_youtu_be cfg then youtu_be t else n0 in
  let n2 := if String.eqb n1 EmptyString && conv_youtube_music cfg then youtube_music t else n1 in
  n2.

(** [Items.insert]. *)
Definition insert (t : string) : M unit :=
  if enable_converters cfg then
    let converted := convert t in
    if negb (String.eqb converted EmptyString) then
      add ("Original: " ++ t)%string ;;;
      add converted ;;;
      copy_text converted
    else add t
  else add t.

(** [Items.select]. *)
Definition select (index : Z) : M unit :=
  l <- get_items ;;
  match py_index l index with
  | Some k => match nth_error l k with
              | Some it => copy_text (text it)
              | None => raise ExnIndex
              end
  | None => raise ExnIndex
  end.

(** [Items.delete]. *)
Definition delete (index : Z) : M unit :=
  l <- get_items ;;
  match py_index l index with
  | Some k => set_items (firstn k l ++ skipn (S k) l) ;;; write
  | None => raise ExnIndex
  end.

(** [Items.delete_all]. *)
Definition delete_all : M unit := set_items [] ;;; write.

(** [Items.confirm_delete]; [ans] is the stripped answer of the yes/no
    Rofi prompt. *)
Definition confirm_delete (ans : string) : M unit :=
  if String.eqb ans "Yes" then delete_all else ret tt.

(** [Items.join]. *)
Definition join (index num : Z) : M unit :=
  let index_2 := index + num in
  l <- get_items ;;
  let item_slice := if reverse_join cfg then rev (slice l index index_2)
                    else slice l index index_2 in
  let s := String.concat " " (map (fun it => strip (text it)) item_slice) in
  set_items (del_slice l index index_2) ;;;
  add s ;;;
  write ;;;
  copy_text s.

End Store.

(* ------------------------------------------------------------------ *)
(** ** The Rofi menu: [Rofi.show] *)

(** What the selector answers when a menu is opened: the stripped standard
    output, [None] when empty and [Some i] for the index [i] printed by
    [-format i]; the exit status; and the stripped answer of the yes/no
    prompt of [Items.confirm_delete], read only when that prompt is opened. *)
Record response := mkResponse {
  resp_ans : option Z;
  resp_code : Z;
  resp_confirm : string
}.

(** What [Rofi.show] does after handling one answer. *)
Inductive next :=
| Redisplay (selected : Z)   (* the recursive call [Rofi.show(selected)] *)
| Done.                      (* [Rofi.show] returns *)

(** Opening the Rofi menu with [-selected-row selected]. *)
Definition open_menu (selected : Z) : M unit :=
  fun w => (Ok tt, mkWorld (items w) (disk w) (writes w) (copied w) (selected :: menus w)).

Section Menu.
Variable cfg : settings.
Variable E : env.

(** The [if ans != ""] block of [Rofi.show]. *)
Definition dispatch (r : response) : M next :=
  match resp_ans r with
  | None => ret Done
  | Some index =>
      let code := resp_code r in
      if code =? 10 then delete index ;;; ret (Redisplay index)
      else if (11 <=? code) && (code <=? 18) then
        join cfg E index (code - 9) ;;; ret (Redisplay 0)
      else if code =? 19 then confirm_delete (resp_confirm r) ;;; ret Done
      else select index ;;; ret Done
  end.

(** [Rofi.show(selected)], fed the answers of the successive menus; the run
    stops when no answer is left. *)
Fixpoint show (selected : Z) (rs : list response) : M unit :=
  open_menu selected ;;;
  match rs with
  | [] => ret tt
  | r :: rs' =>
      nx <- dispatch r ;;
      match nx with
      | Redisplay k => show k rs'
      | Done => ret tt
      end
  end.

End Menu.

(* ------------------------------------------------------------------ *)
(** ** The watcher loop: [Watcher.start] *)

(** What the external calls of one iteration of the [while True] loop
    return: the exit status of [copyevent -s clipboard]; the result of
    [xclip -o -sel clip] ([None] when it raises, e.g. on its 3 s timeout;
    [Some (status, stdout)] otherwise); and the ports seen by
    [Items.insert] during the iteration. *)
Record iter_obs := mkObs {
  obs_notify : Z;
  obs_clip : option (Z * string);
  obs_env : env
}.

(** [try: ... except Exception]: the exception is caught, the mutations
    done before it stay. *)
Definition catch {A} (m : M A) : M (result A) :=
  fun w => let (r, w') := m w in (Ok r, w').

(** [Items.read]: the list is reloaded from the items file. *)
Definition read_items : M unit :=
  fun w => (Ok tt, mkWorld (disk w) (disk w) (writes w) (copied w) (menus w)).

(** [max_iterations]. *)
Definition max_iterations : Z := 100.

(** The state of the loop between two iterations. *)
Inductive wstate :=
| Running (iterations : Z)
| Exited.                    (* [exit(1)] after "Too many iterations" *)

Section Watcher.
Variable cfg : settings.

(** The body of the [try] block, after the cap check, from the counter
    [iterations] already incremented. *)
Definition watch_body (iterations : Z) (o : iter_obs) : M Z :=
  if obs_notify o =? 0 then
    match obs_clip o with
    | None => ret iterations
    | Some (rc, clip) =>
        if rc =? 0 then
          if negb (String.eqb clip EmptyString) then
            read_items ;;; insert cfg (obs_env o) clip ;;; ret 0
          else ret iterations
        else ret iterations
    end
  else ret iterations.

(** One iteration of the [while True] loop. [exit(1)] raises
    [SystemExit], which [except Exception] does not catch. *)
Definition watch_iter (iterations : Z) (o : iter_obs) : M wstate :=
  let iterations1 := iterations + 1 in
  if iterations1 >? max_iterations then ret Exited else
  r <- catch (watch_body iterations1 o) ;;
  match r with
  | Ok c => ret (Running c)
  | Raise _ => ret (Running iterations1)
  end.

(** The loop, run on the observations of its successive iterations. *)
Fixpoint watch (iterations : Z) (os : list iter_obs) : M wstate :=
  match os with
  | [] => ret (Running iterations)
  | o :: os' =>
      st <- watch_iter iterations o ;;
      match st with
      | Running c => watch c os'
      | Exited => ret Exited
      end
  end.

(** Whether an iteration on world [w] resets the counter: the notifier and
    [xclip] succeed, the clipboard text is non-empty and reading and
    inserting it raise nothing. *)
Definition iter_resets (o : iter_obs) (w : world) : bool :=
  (obs_notify o =? 0) &&
  match obs_clip o with
  | Some (rc, clip) =>
      (rc =? 0) && negb (String.eqb clip EmptyString) &&
      match fst ((read_items ;;; insert cfg (obs_env o) clip) w) with
      | Ok _ => true
      | Raise _ => false
      end
  | None => false
  end.

End Watcher.

(* ------------------------------------------------------------------ *)
(** ** [main] *)

(** The top-level actions of [main]. *)
Inductive action :=
| ConfigSetup          (* [Config.setup()] *)
| SettingsRead         (* [Settings.read()] *)
| WatcherStart         (* [Watcher.start()] *)
| ItemsRead            (* [Items.read()] *)
| RofiShow (selected : Z).  (* [Rofi.show(selected)] *)

(** [main], on [sys.argv]: the actions it performs, in order. *)
Definition main (argv : list string) : list action :=
  let mode := match argv with
              | _ :: m :: _ => m
              | _ => "show"%string
              end in
  [ConfigSetup; SettingsRead] ++
  (if String.eqb mode "watcher" then [WatcherStart]
   else if String.eqb mode "show" then [ItemsRead; RofiShow 0]
   else []).

(* ------------------------------------------------------------------ *)
(** ** The age column of the menu: [Utils.get_timeago] *)

(** [round(a / b)] for integers [a] and [b > 0]: Python's [round] rounds
    half to even. The float quotient is correctly rounded, and for the
    minute counts involved here (far below 2^40) it lies on the same side
    of every half-integer as the exact quotient, so the exact rational
    rounding below gives the same integer. *)
Definition round_div (a b : Z) : Z :=
  let q := a / b in
  let r := a mod b in
  if 2 * r <? b then q
  else if b <? 2 * r then q + 1
  else if Z.even q then q else q + 1.

(** [str(n)] for an integer. *)
Definition str_of_Z (n : Z) : string :=
  NilEmpty.string_of_int (Z.to_int n).

(** [s.rjust(k, c)] and [s.ljust(k, c)]. *)
Definition rjust (s : string) (k : nat) (c : ascii) : string :=
  (String.concat "" (repeat (String c EmptyString) (k - String.length s)) ++ s)%string.
Definition ljust (s : string) (k : nat) (c : ascii) : string :=
  (s ++ String.concat "" (repeat (String c EmptyString) (k - String.length s)))%string.

(** [Utils.fillnum]. *)
Definition fillnum (num : Z) : string := rjust (str_of_Z num) 2 "0".

(** [Utils.get_timeago]: [None] when no branch assigns [timeago], where
    Python raises [UnboundLocalError] at the [return]. *)
Definition get_timeago (mins : Z) : option string :=
  let timeago :=
    if 1440 <=? mins then Some (fillnum (round_div mins 1440) ++ " days")%string
    else if 60 <=? mins then Some (fillnum (round_div mins 60) ++ " hours")%string
    else if 1 <=? mins then Some (fillnum mins ++ " mins")%string
    else if mins =? 0 then Some "just now"%string
    else None in
  match timeago with
  | Some ta => Some (ljust ("(" ++ ta ++ ")") 12 " ")
  | None => None
  end.

(** The age column of one item in [Rofi.show]:
    [Utils.get_timeago(round((date_now - item.date) / 60))]. *)
Definition item_timeago (date_now : Z) (it : item) : option string :=
  get_timeago (round_div (date_now - date it) 60).

(* ------------------------------------------------------------------ *)
(** ** The converter of [converts.py] *)

(** [convert_text] of [converts.py]. Its helpers come from the modules
    [utils] and [settings], which are not among the sources: [utils.space]
    is taken to be [Utils.space] of [clipton.py], and
    [setting("converts")["youtube_music"]] is the parameter [music]. Unlike
    [Converters.convert], it returns the text itself when nothing applies. *)
Definition convert_text (music : bool) (text0 : string) : string :=
  if space text0 then text0 else
  if music then
    let m := search youtube_music_match text0 in
    let g3 := match m with
              | Some (_, Some playlist_id) =>
                  if String.eqb playlist_id EmptyString then text0
                  else ("https://www.youtube.com/playlist?list=" ++ playlist_id)%string
              | _ => text0
              end in
    match m with
    | Some (Some video_id, _) =>
        if String.eqb video_id EmptyString then g3
        else ("https://www.youtube.com/watch?v=" ++ video_id)%string
    | _ => g3
    end
  else text0.

(* ------------------------------------------------------------------ *)
(** ** Auxiliary predicates for the statements *)

(** Every character of a string is in a class. *)
Fixpoint forall_str (p : ascii -> bool) (s : string) : bool :=
  match s with
  | EmptyString => true
  | String c s' => p c && forall_str p s'
  end.

(** The outcome of the title step of [Items.add] for the text [t]. *)
Definition title_res (cfg : settings) (E : env) (t : string) : result string :=
  fst ((if enable_titles cfg then get_title E t else ret EmptyString)
         (mkWorld [] [] 0 [] [])).

(** The invariants of a store (spec, section 3): at most [max_items]
    items, every text one that [Items.add] accepts, no two equal texts. *)
Definition store_inv (cfg : settings) (l : list item) : Prop :=
  Z.of_nat (List.length l) <= max_items cfg
  /\ Forall (fun it => accepted cfg (text it) = true) l
  /\ NoDup (map text l).

(** What a converter returns: nothing, or a whitespace-free
    [https://www.youtube.com/] URL. *)
Definition yt_shape (s : string) : Prop :=
  s = EmptyString \/ (space s = false /\ exists r, s = ("https://www.youtube.com/" ++ r)%string).

(** The first character of a string is in a class. *)
Definition starts_with (p : ascii -> bool) (s : string) : bool :=
  match s with
  | String c _ => p c
  | EmptyString => false
  end.

(** The string begins with [?t=] followed by a digit: what the optional
    timestamp group of the [youtu_be] pattern needs. *)
Definition starts_with_timestamp (s : string) : bool :=
  match strip_prefix "?t=" s with
  | Some r => starts_with is_digit r
  | None => false
  end.

(** An iteration of [Watcher.start] that finds no new text: the
    clipboard event failed, or [xclip] failed, or the text is empty. *)
Definition idle (o : iter_obs) : Prop :=
  obs_notify o <> 0 \/
  match obs_clip o with
  | None => True
  | Some (rc, clip) => rc <> 0 \/ clip = EmptyString
  end.

(** The list [l] less its first item whose text is [t], or [l] itself
    when no item has this text: what the spec says remains of the store
    behind the item an insertion puts at the front. *)
Fixpoint without_text (t : string) (l : list item) : list item :=
  match l with
  | [] => []
  | x :: l' => if String.eqb (text x) t then l' else x :: without_text t l'
  end.

(* ------------------------------------------------------------------ *)
(** ** Lemmas on the store *)

Lemma title_step_world (cfg : settings) (E : env) (t : string) (w : world) :
  (if enable_titles cfg then get_title E t else ret EmptyString) w = (title_res cfg E t, w).
Proof.
  unfold title_res, get_title, ret, raise.
  destruct (enable_titles cfg); [|reflexivity].
  destruct (strip_prefix "https://" t); [|reflexivity].
  destruct (negb (space t)); [|reflexivity].
  destruct (String.eqb (env_url_type E t) "text/html"); [|reflexivity].
  destruct (env_fetch_title E t); reflexivity.
Qed.

Lemma add_rejected (cfg : settings) (E : env) (t : string) (w : world) :
  accepted cfg (rstrip t) = false -> add cfg E t w = (Ok tt, w).
Proof.
  unfold accepted, add, ret.
  destruct (String.eqb (rstrip t) EmptyString); [reflexivity|].
  destruct (String.prefix "file://" (rstrip t)); [reflexivity|].
  simpl. intro H. rewrite Z.leb_gt in H.
  replace (Z.of_nat (String.length (rstrip t)) >? heavy_paste cfg) with true
    by (symmetry; apply Z.gtb_lt; lia).
  reflexivity.
Qed.

Lemma add_accepted_unfold (cfg : settings) (E : env) (t : string) (w : world) :
  accepted cfg (rstrip t) = true ->
  add cfg E t w =
  (match take_first (fun it => String.eqb (text it) (rstrip t)) (items w) with
   | Some (it, rest) =>
       let l2 := slice_to (it :: rest) (max_items cfg) in
       (Ok tt, mkWorld l2 l2 (S (writes w)) (copied w) (menus w))
   | None =>
       match title_res cfg E (rstrip t) with
       | Ok ti =>
           let l2 := slice_to (from_text E (rstrip t) ti :: items w) (max_items cfg) in
           (Ok tt, mkWorld l2 l2 (S (writes w)) (copied w) (menus w))
       | Raise e => (Raise e, w)
       end
   end).
Proof.
  unfold accepted. intro H.
  apply andb_prop in H as [H H3]. apply andb_prop in H as [H1 H2].
  apply negb_true_iff in H1, H2. apply Z.leb_le in H3.
  unfold add. rewrite H1, H2.
  replace (Z.of_nat (String.length (rstrip t)) >? heavy_paste cfg) with false
    by (symmetry; rewrite Z.gtb_ltb; apply Z.ltb_ge; lia).
  unfold bind at 1, get_items.
  destruct (take_first _ (items w)) as [[it rest]|].
  - reflexivity.
  - unfold bind at 1. unfold bind at 1. rewrite title_step_world.
    destruct (title_res cfg E (rstrip t)); reflexivity.
Qed.

Lemma take_first_some {A} (p : A -> bool) (l : list A) (x : A) (r : list A) :
  take_first p l = Some (x, r) ->
  exists pre post, l = pre ++ x :: post /\ r = pre ++ post /\ p x = true
                   /\ Forall (fun y => p y = false) pre.
Proof.
  revert r. induction l as [|y l IH]; simpl; intros r H; [discriminate|].
  destruct (p y) eqn:Hy.
  - injection H as <- <-. exists [], l. auto.
  - destruct (take_first p l) as [[z r']|] eqn:Ht; [|discriminate].
    injection H as <- <-.
    destruct (IH r' eq_refl) as (pre & post & -> & -> & Hx & Hpre).
    exists (y :: pre), post. repeat split; auto.
Qed.

Lemma take_first_none {A} (p : A -> bool) (l : list A) :
  take_first p l = None -> Forall (fun y => p y = false) l.
Proof.
  induction l as [|y l IH]; simpl; intros H; [constructor|].
  destruct (p y) eqn:Hy; [discriminate|].
  destruct (take_first p l) as [[z r']|]; [discriminate|].
  constructor; auto.
Qed.

Lemma take_first_without_some (t : string) (l : list item) (x : item) (r : list item) :
  take_first (fun it => String.eqb (text it) t) l = Some (x, r) -> r = without_text t l.
Proof.
  revert r. induction l as [|y l IH]; simpl; intros r H; [discriminate|].
  destruct (String.eqb (text y) t).
  - now injection H as _ <-.
  - destruct (take_first _ l) as [[z r']|]; [|discriminate].
    injection H as <- <-. now rewrite (IH r' eq_refl).
Qed.

Lemma take_first_without_none (t : string) (l : list item) :
  take_first (fun it => String.eqb (text it) t) l = None -> without_text t l = l.
Proof.
  induction l as [|y l IH]; simpl; intro H; [reflexivity|].
  destruct (String.eqb (text y) t); [discriminate|].
  destruct (take_first _ l) as [[z r']|]; [discriminate|]. now rewrite IH.
Qed.

Lemma slice_to_nonneg {A} (l : list A) (m : Z) :
  0 <= m -> slice_to l m = firstn (Z.to_nat m) l.
Proof. intro H. unfold slice_to. now replace (0 <=? m) with true by (symmetry; apply Z.leb_le; lia). Qed.

Lemma slice_to_length {A} (l : list A) (m : Z) :
  0 <= m -> Z.of_nat (List.length (slice_to l m)) <= m.
Proof. intro H. rewrite slice_to_nonneg by lia. rewrite length_firstn. lia. Qed.

Lemma take_first_app {A} (p : A -> bool) (pre post : list A) (x : A) :
  Forall (fun y => p y = false) pre -> p x = true ->
  take_first p (pre ++ x :: post) = Some (x, pre ++ post).
Proof.
  intros Hpre Hx. induction Hpre as [|y pre Hy _ IH]; simpl.
  - now rewrite Hx.
  - now rewrite Hy, IH.
Qed.

Lemma store_inv_max_nonneg (cfg : settings) (l : list item) :
  store_inv cfg l -> 0 <= max_items cfg.
Proof. intros [H _]. lia. Qed.

(* ------------------------------------------------------------------ *)
(** ** Lemmas on strings and the converters *)

Lemma space_app (a b : string) : space (a ++ b) = space a || space b.
Proof. induction a as [|c a IH]; simpl; [reflexivity|]. now rewrite IH, orb_assoc. Qed.

Lemma word_not_space (c : ascii) : is_word_dash c = true -> is_space c = false.
Proof. destruct c as [[][][][][][][][]]; vm_compute; congruence. Qed.

Lemma digit_is_word (c : ascii) : is_digit c = true -> is_word_dash c = true.
Proof. unfold is_word_dash. intro H. now rewrite H. Qed.

Lemma forall_str_mono (p q : ascii -> bool) (s : string) :
  (forall c, p c = true -> q c = true) -> forall_str p s = true -> forall_str q s = true.
Proof.
  intro Hpq. induction s as [|c s IH]; simpl; [reflexivity|].
  intro H. apply andb_prop in H as [H1 H2]. now rewrite (Hpq c H1), IH.
Qed.

Lemma word_no_space (s : string) : forall_str is_word_dash s = true -> space s = false.
Proof.
  induction s as [|c s IH]; simpl; [reflexivity|].
  intro H. apply andb_prop in H as [H1 H2]. now rewrite word_not_space, IH.
Qed.

Lemma append_empty_r (s : string) : (s ++ EmptyString)%string = s.
Proof. induction s as [|c s IH]; simpl; [reflexivity|]. now rewrite IH. Qed.

Lemma span_app (p : ascii -> bool) (w r : string) :
  forall_str p w = true ->
  match r with EmptyString => true | String c _ => negb (p c) end = true ->
  span p (w ++ r) = (w, r).
Proof.
  intros Hw Hr. induction w as [|c w IH]; simpl.
  - destruct r as [|c r]; [reflexivity|]. simpl. apply negb_true_iff in Hr. now rewrite Hr.
  - simpl in Hw. apply andb_prop in Hw as [H1 H2]. rewrite H1, IH by exact H2. reflexivity.
Qed.

Lemma span_all (p : ascii -> bool) (w : string) :
  forall_str p w = true -> span p w = (w, EmptyString).
Proof. intro H. rewrite <- (append_empty_r w) at 1. now apply span_app. Qed.

Lemma search_hit {A} (f : string -> option A) (s : string) (m : A) :
  f s = Some m -> search f s = Some m.
Proof. intro H. destruct s; simpl; now rewrite H. Qed.

(* ------------------------------------------------------------------ *)
(** ** The claims on [Items.add] *)

(** C8: inserting a text whose right-trimmed form is empty, starts with
    [file://] or is longer than [heavy_paste] returns normally and changes
    nothing: the list, the items file and the number of writes are those
    of before. *)
Theorem add_rejected_noop (cfg : settings) (E : env) (t : string) (w : world) :
  (rstrip t = EmptyString
   \/ String.prefix "file://" (rstrip t) = true
   \/ Z.of_nat (String.length (rstrip t)) > heavy_paste cfg) ->
  add cfg E t w = (Ok tt, w).
Proof.
  intro H. apply add_rejected. unfold accepted.
  destruct H as [H|[H|H]].
  - now rewrite H.
  - rewrite H. now rewrite andb_false_r.
  - replace (Z.of_nat (String.length (rstrip t)) <=? heavy_paste cfg) with false
      by (symmetry; apply Z.leb_gt; lia).
    now rewrite andb_false_r.
Qed.

Lemma add_rejected_noop_witness :
  add default_settings (mkEnv 0 (fun _ => "none"%string) (fun _ => None)) "file://x"
      (mkWorld [] [] 0 [] [])
  = (Ok tt, mkWorld [] [] 0 [] []).
Proof.
  apply add_rejected_noop. right. left. reflexivity.
Defined.

(** C6: an [Items.add] on a list of at most [max_items] items leaves at
    most [max_items] items. Either the list is unchanged, because the text
    is rejected or the call raises; or it is the first [max_items] items
    of the list made of the moved or created item (with the right-trimmed
    text) followed by the old list less its item with that text, if there
    was one: the old items keep their order and only trailing items are
    dropped. *)
Theorem add_bounded (cfg : settings) (E : env) (t : string) (w : world) :
  Z.of_nat (List.length (items w)) <= max_items cfg ->
  let w' := snd (add cfg E t w) in
  Z.of_nat (List.length (items w')) <= max_items cfg
  /\ ((items w' = items w
       /\ (accepted cfg (rstrip t) = false \/ exists e, fst (add cfg E t w) = Raise e))
      \/ exists it, text it = rstrip t
                    /\ items w' = firstn (Z.to_nat (max_items cfg))
                                         (it :: without_text (rstrip t) (items w))).
Proof.
  intros Hlen w'. subst w'.
  assert (Hm : 0 <= max_items cfg) by lia.
  destruct (accepted cfg (rstrip t)) eqn:Ha.
  2:{ rewrite add_rejected by exact Ha. simpl. auto. }
  rewrite add_accepted_unfold by exact Ha.
  destruct (take_first _ (items w)) as [[it rest]|] eqn:Ht.
  - simpl. split; [now apply slice_to_length|].
    right. exists it. rewrite slice_to_nonneg by exact Hm.
    destruct (take_first_some _ _ _ _ Ht) as (pre & post & Hl & Hr & Hx & _).
    split; [now apply String.eqb_eq|].
    now rewrite (take_first_without_some _ _ _ _ Ht).
  - destruct (title_res cfg E (rstrip t)) as [ti|e].
    + simpl. split; [now apply slice_to_length|].
      right. exists (from_text E (rstrip t) ti).
      rewrite slice_to_nonneg by exact Hm.
      split; [reflexivity|]. now rewrite (take_first_without_none _ _ Ht).
    + simpl. split; [exact Hlen|]. left. split; [reflexivity|]. right. now exists e.
Qed.

Lemma add_bounded_witness :
  Z.of_nat (List.length [mkItem "b" 20 1 ""; mkItem "a" 10 1 ""])
    <= max_items (mkSettings 2 5000 true true false true true)
  /\ let w' := snd (add (mkSettings 2 5000 true true false true true)
                        (mkEnv 30 (fun _ => "none"%string) (fun _ => None)) "c"
                        (mkWorld [mkItem "b" 20 1 ""; mkItem "a" 10 1 ""] [] 0 [] [])) in
     Z.of_nat (List.length (items w')) <= max_items (mkSettings 2 5000 true true false true true)
     /\ ((items w' = [mkItem "b" 20 1 ""; mkItem "a" 10 1 ""]
          /\ (accepted (mkSettings 2 5000 true true false true true) (rstrip "c") = false
              \/ exists e, fst (add (mkSettings 2 5000 true true false true true)
                                   (mkEnv 30 (fun _ => "none"%string) (fun _ => None)) "c"
                                   (mkWorld [mkItem "b" 20 1 ""; mkItem "a" 10 1 ""] [] 0 [] []))
                            = Raise e))
         \/ exists it, text it = rstrip "c"
                       /\ items w' = firstn (Z.to_nat (max_items (mkSettings 2 5000 true true false true true)))
                                            (it :: without_text (rstrip "c")
                                                    [mkItem "b" 20 1 ""; mkItem "a" 10 1 ""])).
Proof.
  assert (H : Z.of_nat (List.length [mkItem "b" 20 1 ""; mkItem "a" 10 1 ""])
              <= max_items (mkSettings 2 5000 true true false true true))
    by (vm_compute; discriminate).
  split; [exact H|].
  exact (add_bounded (mkSettings 2 5000 true true false true true)
           (mkEnv 30 (fun _ => "none"%string) (fun _ => None)) "c"
           (mkWorld [mkItem "b" 20 1 ""; mkItem "a" 10 1 ""] [] 0 [] []) H).
Defined.

(** The spec's example: with [max_items = 2], inserting "c" after "a"
    and "b" evicts "a". *)
Example add_bounded_ex :
  items (snd (add (mkSettings 2 5000 true true false true true)
                  (mkEnv 30 (fun _ => "none"%string) (fun _ => None)) "c"
                  (mkWorld [mkItem "b" 20 1 ""; mkItem "a" 10 1 ""] [] 0 [] [])))
  = [mkItem "c" 30 1 ""; mkItem "b" 20 1 ""].
Proof. vm_compute. reflexivity. Qed.

(** C5: on a store satisfying the invariants, inserting a text whose
    right-trimmed form is the text of an existing item moves that very
    item, all its fields unchanged, to the front; no item is created and
    the others keep their order; the list is written once. *)
Theorem add_duplicate_to_front (cfg : settings) (E : env) (t : string) (w : world)
    (pre post : list item) (it : item) :
  store_inv cfg (items w) ->
  items w = pre ++ it :: post ->
  text it = rstrip t ->
  add cfg E t w =
  (Ok tt, mkWorld (it :: pre ++ post) (it :: pre ++ post) (S (writes w)) (copied w) (menus w)).
Proof.
  intros Hinv Hl Ht.
  pose proof Hinv as (Hlen & Hacc & Hnd).
  rewrite Hl in Hacc, Hnd, Hlen.
  assert (Ha : accepted cfg (rstrip t) = true).
  { rewrite <- Ht. apply Forall_app in Hacc as [_ Hacc]. now inversion Hacc. }
  rewrite add_accepted_unfold by exact Ha.
  rewrite Hl, take_first_app with (post := post).
  - simpl. rewrite slice_to_nonneg by lia.
    rewrite firstn_all2; [reflexivity|].
    simpl length in *. rewrite ?length_app in *. simpl length in *. lia.
  - rewrite map_app in Hnd. simpl in Hnd.
    apply NoDup_remove_2 in Hnd.
    apply Forall_forall. intros y Hy.
    apply String.eqb_neq. intro Hyt. apply Hnd.
    apply in_or_app. left. rewrite Ht, <- Hyt. now apply in_map.
  - now apply String.eqb_eq.
Qed.

Lemma add_duplicate_to_front_witness :
  add default_settings (mkEnv 200 (fun _ => "none"%string) (fun _ => None)) "a  "
    (mkWorld [mkItem "b" 150 1 ""; mkItem "a" 100 1 "t"] [] 0 [] [])
  = (Ok tt, mkWorld [mkItem "a" 100 1 "t"; mkItem "b" 150 1 ""]
                    [mkItem "a" 100 1 "t"; mkItem "b" 150 1 ""] 1 [] []).
Proof.
  apply (add_duplicate_to_front default_settings (mkEnv 200 (fun _ => "none"%string) (fun _ => None))
           "a  " (mkWorld [mkItem "b" 150 1 ""; mkItem "a" 100 1 "t"] [] 0 [] [])
           [mkItem "b" 150 1 ""] [] (mkItem "a" 100 1 "t")).
  - split; [vm_compute; discriminate|]. split.
    + repeat constructor.
    + simpl. repeat constructor; simpl; intuition discriminate.
  - reflexivity.
  - reflexivity.
Defined.

Lemma firstn_keeps {A} (P : A -> Prop) (k : nat) (l : list A) :
  Forall P l -> Forall P (firstn k l).
Proof.
  intro H. rewrite <- (firstn_skipn k l) in H. now apply Forall_app in H as [H _].
Qed.

Lemma firstn_nodup_text (k : nat) (l : list item) :
  NoDup (map text l) -> NoDup (map text (firstn k l)).
Proof.
  intro H. rewrite <- firstn_map. rewrite <- (firstn_skipn k (map text l)) in H.
  exact (NoDup_app_remove_r _ _ H).
Qed.

(** The invariants of [store_inv] hold of every store built by [Items.add]
    from the empty one: [Items.add] preserves them. *)
Lemma add_preserves_store_inv (cfg : settings) (E : env) (t : string) (w : world) :
  store_inv cfg (items w) -> store_inv cfg (items (snd (add cfg E t w))).
Proof.
  intro Hinv. pose proof (store_inv_max_nonneg _ _ Hinv) as Hm.
  destruct Hinv as (Hlen & Hacc & Hnd).
  destruct (accepted cfg (rstrip t)) eqn:Ha.
  2:{ rewrite add_rejected by exact Ha. split; auto. }
  rewrite add_accepted_unfold by exact Ha.
  destruct (take_first _ (items w)) as [[it rest]|] eqn:Ht.
  - destruct (take_first_some _ _ _ _ Ht) as (pre & post & Hl & -> & Hx & _).
    cbn [snd items]. rewrite Hl in Hacc, Hnd.
    split; [now apply slice_to_length|]. rewrite slice_to_nonneg by exact Hm.
    split.
    + apply firstn_keeps. apply Forall_app in Hacc as [H1 H2]. inversion H2; subst.
      constructor; [assumption|]. now apply Forall_app.
    + apply firstn_nodup_text. rewrite map_app in Hnd. simpl in Hnd |- *.
      rewrite map_app. constructor.
      * now apply NoDup_remove_2.
      * now apply NoDup_remove_1 in Hnd.
  - apply take_first_none in Ht.
    destruct (title_res cfg E (rstrip t)) as [ti|e]; cbn [snd items].
    + split; [now apply slice_to_length|]. rewrite slice_to_nonneg by exact Hm.
      split.
      * apply firstn_keeps. constructor; [exact Ha|exact Hacc].
      * apply firstn_nodup_text. simpl. constructor; [|exact Hnd].
        intro Hin. apply in_map_iff in Hin as (y & Hy & Hiny).
        rewrite Forall_forall in Ht. specialize (Ht y Hiny). simpl in Ht.
        rewrite Hy in Ht. now rewrite String.eqb_refl in Ht.
    + split; auto.
Qed.

(** C2 (defect): with titles enabled, a new accepted text that is a bare
    [https://] URL whose content type is [text/html], but whose page fetch
    raises, makes [Items.add] raise: nothing is inserted and nothing is
    written. *)
Theorem add_title_failure_raises (cfg : settings) (E : env) (t : string) (w : world) :
  enable_titles cfg = true ->
  accepted cfg (rstrip t) = true ->
  take_first (fun it => String.eqb (text it) (rstrip t)) (items w) = None ->
  strip_prefix "https://" (rstrip t) <> None ->
  space (rstrip t) = false ->
  env_url_type E (rstrip t) = "text/html"%string ->
  env_fetch_title E (rstrip t) = None ->
  add cfg E t w = (Raise ExnTitle, w).
Proof.
  intros Hen Ha Hn Hp Hs Hu Hf.
  rewrite add_accepted_unfold by exact Ha. rewrite Hn.
  unfold title_res, get_title. rewrite Hen.
  destruct (strip_prefix "https://" (rstrip t)); [|congruence].
  rewrite Hs, Hu, Hf. reflexivity.
Qed.

Lemma add_title_failure_raises_witness :
  add default_settings (mkEnv 0 (fun _ => "text/html"%string) (fun _ => None))
      "https://example.com" (mkWorld [] [] 0 [] [])
  = (Raise ExnTitle, mkWorld [] [] 0 [] []).
Proof.
  apply add_title_failure_raises; try reflexivity. discriminate.
Defined.

(* ------------------------------------------------------------------ *)
(** ** The claims on the converters *)

(** C1 (defect): on [https://youtu.be/<id>?t=<seconds>] the converter puts
    group 2 of the regular expression, ["?t=<seconds>"], after [&t=]
    instead of the digits of group 3. *)
Theorem youtu_be_timestamp (vid secs : string) :
  vid <> EmptyString -> forall_str is_word_dash vid = true ->
  secs <> EmptyString -> forall_str is_digit secs = true ->
  youtu_be ("https://youtu.be/" ++ vid ++ "?t=" ++ secs)
  = ("https://www.youtube.com/watch?v=" ++ vid ++ "&t=?t=" ++ secs ++ "s")%string.
Proof.
  intros Hv Hvw Hs Hsd.
  assert (Hsw : forall_str is_word_dash secs = true)
    by (apply (forall_str_mono is_digit); [exact digit_is_word | exact Hsd]).
  unfold youtu_be.
  replace (space ("https://youtu.be/" ++ vid ++ "?t=" ++ secs)) with false.
  2:{ symmetry. rewrite !space_app, (word_no_space vid), (word_no_space secs) by assumption.
      reflexivity. }
  rewrite (search_hit _ _ (vid, Some ("?t=" ++ secs)%string, Some secs)).
  - apply String.eqb_neq in Hv. rewrite Hv. reflexivity.
  - unfold youtu_be_match. simpl.
    rewrite span_app by (assumption || reflexivity).
    apply String.eqb_neq in Hv. rewrite Hv. simpl.
    rewrite span_all by assumption.
    apply String.eqb_neq in Hs. rewrite Hs. reflexivity.
Qed.

Lemma youtu_be_timestamp_witness :
  youtu_be "https://youtu.be/abc123?t=30"
  = "https://www.youtube.com/watch?v=abc123&t=?t=30s"%string.
Proof.
  apply (youtu_be_timestamp "abc123" "30"); (discriminate || reflexivity).
Defined.

Example youtu_be_ex :
  youtu_be "https://youtu.be/abc123?t=30" = "https://www.youtube.com/watch?v=abc123&t=?t=30s"%string.
Proof. reflexivity. Qed.

Example youtube_music_ex :
  youtube_music "https://music.youtube.com/playlist?list=XYZ" = "https://www.youtube.com/playlist?list=XYZ"%string.
Proof. reflexivity. Qed.

(* ------------------------------------------------------------------ *)
(** ** The claim on [main] *)

(** C3, as stated: a first argument other than [watcher] and [show] is
    treated as [show]. It is not: [main] with [foo] does not do what it does
    with [show]. *)
Lemma main_other_mode_not_show :
  main ["clipton.py"; "foo"]%string <> main ["clipton.py"; "show"]%string.
Proof. vm_compute. discriminate. Qed.

(** C3, amended: with a first argument other than [watcher] and [show],
    [main] only creates the configuration files and reads the settings; it
    neither loads the store nor opens the menu nor starts the watcher. *)
Theorem main_other_mode (argv0 mode : string) (rest : list string) :
  mode <> "watcher"%string -> mode <> "show"%string ->
  main (argv0 :: mode :: rest) = [ConfigSetup; SettingsRead].
Proof.
  intros Hw Hs. unfold main.
  apply String.eqb_neq in Hw, Hs. rewrite Hw, Hs. reflexivity.
Qed.

Lemma main_other_mode_witness :
  main ["clipton.py"; "foo"]%string = [ConfigSetup; SettingsRead].
Proof. apply main_other_mode; discriminate. Defined.

(* ------------------------------------------------------------------ *)
(** ** The claim on the menu *)

(** C4, as stated: code 19 leads to [Displaying(0)]. It does not: with the
    answer [No] the dispatcher ends. *)
Lemma dispatch_clear_not_redisplay :
  fst (dispatch default_settings (mkEnv 0 (fun _ => "none"%string) (fun _ => None))
         (mkResponse (Some 0) 19 "No") (mkWorld [] [] 0 [] []))
  <> Ok (Redisplay 0).
Proof. vm_compute. discriminate. Qed.

(** C4, amended: on status code 19 with a non-empty answer, [Rofi.show]
    runs the yes/no prompt, deletes all the items and writes the empty list
    when the answer is [Yes], and then returns: the menu is not opened
    again, whatever answers would follow. *)
Theorem show_clear_all_ends (cfg : settings) (E : env) (selected index : Z)
    (confirm : string) (rs : list response) (w : world) :
  show cfg E selected (mkResponse (Some index) 19 confirm :: rs) w =
  (Ok tt,
   if String.eqb confirm "Yes"
   then mkWorld [] [] (S (writes w)) (copied w) (selected :: menus w)
   else mkWorld (items w) (disk w) (writes w) (copied w) (selected :: menus w)).
Proof.
  simpl. unfold bind, open_menu, dispatch, confirm_delete, delete_all, ret. simpl.
  destruct (String.eqb confirm "Yes"); reflexivity.
Qed.

(* ------------------------------------------------------------------ *)
(** ** The claim on [Items.join] *)

Lemma slice_bound_in (i : Z) (n : nat) : 0 <= i -> i <= Z.of_nat n -> slice_bound i n = Z.to_nat i.
Proof.
  intros H1 H2. unfold slice_bound.
  replace (i <? 0) with false by (symmetry; apply Z.ltb_ge; lia). lia.
Qed.

Lemma slice_in {A} (l : list A) (i n : Z) :
  0 <= i -> 0 <= n -> i + n <= Z.of_nat (List.length l) ->
  slice l i (i + n) = firstn (Z.to_nat n) (skipn (Z.to_nat i) l)
  /\ del_slice l i (i + n) = firstn (Z.to_nat i) l ++ skipn (Z.to_nat (i + n)) l.
Proof.
  intros H1 H2 H3. unfold slice, del_slice.
  rewrite !slice_bound_in by lia.
  split.
  - f_equal. lia.
  - do 2 f_equal. lia.
Qed.

(** C7, as stated: the joined item always appears. It does not when the
    merged text is longer than [heavy_paste]: with [heavy_paste = 5],
    joining ["abc"] and ["def"] removes both and adds nothing. *)
Lemma join_merged_rejected :
  ~ exists it,
      In it (items (snd (join (mkSettings 2000 5 true true false true true)
                              (mkEnv 0 (fun _ => "none"%string) (fun _ => None)) 0 2
                              (mkWorld [mkItem "abc" 0 1 ""; mkItem "def" 0 1 ""] [] 0 [] []))))
      /\ text it = "abc def"%string.
Proof. vm_compute. intros [it [[] _]]. Qed.

Lemma join_eq (cfg : settings) (E : env) (index n : Z) (w : world) :
  reverse_join cfg = false ->
  0 <= index -> 0 <= n -> index + n <= Z.of_nat (List.length (items w)) ->
  join cfg E index n w =
  (let s := String.concat " " (map (fun it => strip (text it))
                                 (firstn (Z.to_nat n) (skipn (Z.to_nat index) (items w)))) in
   let remaining := firstn (Z.to_nat index) (items w) ++ skipn (Z.to_nat (index + n)) (items w) in
   match add cfg E s (mkWorld remaining (disk w) (writes w) (copied w) (menus w)) with
   | (Ok _, w2) => (write ;;; copy_text s) w2
   | (Raise e, w2) => (Raise e, w2)
   end).
Proof.
  intros Hrev Hi Hn Hlen.
  destruct (slice_in (items w) index n Hi Hn Hlen) as [Hsl Hdel].
  unfold join, bind at 1, get_items. rewrite Hrev, Hsl, Hdel. reflexivity.
Qed.

(** C7, amended: [join index n] with [reverse_join] off and the [n] items
    in range removes these items and passes their merged text [s] (their
    stripped texts joined by single spaces) to [Items.add], then copies [s].
    If [Items.add] rejects [s] (empty, [file://] or longer than
    [heavy_paste] after right-trimming), the items are gone and nothing is
    added. Otherwise, when the title step does not raise and [max_items] is
    at least 1, the front item has the right-trimmed merged text and the
    rest is the remaining items, less an existing item with the same text
    if there was one, truncated to [max_items]. *)
Theorem join_merge (cfg : settings) (E : env) (index n : Z) (w : world) :
  reverse_join cfg = false ->
  0 <= index -> 0 <= n -> index + n <= Z.of_nat (List.length (items w)) ->
  let src := firstn (Z.to_nat n) (skipn (Z.to_nat index) (items w)) in
  let s := String.concat " " (map (fun it => strip (text it)) src) in
  let remaining := firstn (Z.to_nat index) (items w) ++ skipn (Z.to_nat (index + n)) (items w) in
  let w' := snd (join cfg E index n w) in
  (accepted cfg (rstrip s) = false ->
   fst (join cfg E index n w) = Ok tt /\ copied w' = s :: copied w
   /\ items w' = remaining)
  /\ (accepted cfg (rstrip s) = true -> (exists ti, title_res cfg E (rstrip s) = Ok ti) ->
      1 <= max_items cfg ->
      fst (join cfg E index n w) = Ok tt /\ copied w' = s :: copied w
      /\ exists it, text it = rstrip s
                    /\ items w' = it :: firstn (Z.to_nat (max_items cfg - 1))
                                               (without_text (rstrip s) remaining)).
Proof.
  intros Hrev Hi Hn Hlen.
  rewrite (join_eq cfg E index n w Hrev Hi Hn Hlen).
  intros src s remaining w'. subst w'. cbv zeta. fold src s remaining.
  split.
  - intro Hacc. rewrite add_rejected by exact Hacc. simpl. auto.
  - intros Hacc [ti Hti] Hm. rewrite add_accepted_unfold by exact Hacc.
    cbn [items disk writes copied menus].
    destruct (take_first _ remaining) as [[it rest]|] eqn:Ht.
    + simpl. split; [reflexivity|]. split; [reflexivity|].
      exists it.
      destruct (take_first_some _ _ _ _ Ht) as (pre & post & Hl & Hr & Hx & _).
      rewrite slice_to_nonneg by lia.
      replace (Z.to_nat (max_items cfg)) with (S (Z.to_nat (max_items cfg - 1))) by lia.
      split; [now apply String.eqb_eq|].
      now rewrite (take_first_without_some _ _ _ _ Ht).
    + rewrite Hti. simpl. split; [reflexivity|]. split; [reflexivity|].
      exists (from_text E (rstrip s) ti).
      rewrite slice_to_nonneg by lia.
      replace (Z.to_nat (max_items cfg)) with (S (Z.to_nat (max_items cfg - 1))) by lia.
      split; [reflexivity|]. now rewrite (take_first_without_none _ _ Ht).
Qed.

Lemma join_merge_witness :
  fst (join default_settings (mkEnv 0 (fun _ => "none"%string) (fun _ => None)) 0 2
         (mkWorld [mkItem "abc" 0 1 ""; mkItem "def" 0 1 ""] [] 0 [] [])) = Ok tt.
Proof.
  destruct (join_merge default_settings (mkEnv 0 (fun _ => "none"%string) (fun _ => None)) 0 2
              (mkWorld [mkItem "abc" 0 1 ""; mkItem "def" 0 1 ""] [] 0 [] [])
              eq_refl ltac:(lia) ltac:(lia) ltac:(vm_compute; discriminate)) as [_ H].
  apply H.
  - vm_compute. reflexivity.
  - exists EmptyString. vm_compute. reflexivity.
  - vm_compute. discriminate.
Defined.

(* ------------------------------------------------------------------ *)
(** ** The claim on the watcher *)

Lemma watch_iter_running (cfg : settings) (c : Z) (o : iter_obs) (w : world) :
  c + 1 <= max_iterations ->
  exists w1, watch_iter cfg c o w = (Ok (Running (if iter_resets cfg o w then 0 else c + 1)), w1).
Proof.
  intro Hc. unfold watch_iter.
  replace (c + 1 >? max_iterations) with false by (symmetry; rewrite Z.gtb_ltb; apply Z.ltb_ge; lia).
  unfold bind at 1, catch, watch_body, iter_resets.
  destruct (obs_notify o =? 0); simpl; [|eexists; reflexivity].
  destruct (obs_clip o) as [[rc clip]|]; simpl; [|eexists; reflexivity].
  destruct (rc =? 0); simpl; [|eexists; reflexivity].
  destruct (String.eqb clip EmptyString); simpl; [eexists; reflexivity|].
  unfold bind, read_items, ret.
  destruct (insert cfg (obs_env o) clip _) as [[u|e] w2]; eexists; reflexivity.
Qed.

(** C9: one iteration of the watcher loop starting from the counter [c]
    exits, changing nothing, exactly when [c + 1] exceeds 100; otherwise it
    raises nothing and leaves the counter at 0 when it read a non-empty
    clipboard text and inserted it without an exception, and at [c + 1] in
    every other case (notifier or [xclip] failure, empty clipboard, caught
    exception). Hence, from a counter [c] in [0..100], fewer than
    [101 - c] iterations never exit, and [101 - c] iterations that do not
    reset the counter (here: failing notifier calls) do exit. *)
Theorem watcher_counter (cfg : settings) (c : Z) (o : iter_obs) (w : world) :
  (c + 1 > max_iterations -> watch_iter cfg c o w = (Ok Exited, w))
  /\ (c + 1 <= max_iterations ->
      fst (watch_iter cfg c o w) = Ok (Running (if iter_resets cfg o w then 0 else c + 1)))
  /\ (forall os, 0 <= c -> Z.of_nat (List.length os) <= max_iterations - c ->
      fst (watch cfg c os w) <> Ok Exited)
  /\ (forall os, 0 <= c <= max_iterations ->
      Z.of_nat (List.length os) >= max_iterations + 1 - c ->
      Forall (fun o' => obs_notify o' <> 0) os ->
      fst (watch cfg c os w) = Ok Exited).
Proof.
  split; [|split; [|split]].
  - intro Hc. unfold watch_iter.
    replace (c + 1 >? max_iterations) with true by (symmetry; apply Z.gtb_lt; lia).
    reflexivity.
  - intro Hc. destruct (watch_iter_running cfg c o w Hc) as [w1 ->]. reflexivity.
  - intro os. revert c w. induction os as [|o' os IH]; intros c w Hc Hlen.
    + simpl. discriminate.
    + simpl length in Hlen.
      assert (Hc1 : c + 1 <= max_iterations) by lia.
      destruct (watch_iter_running cfg c o' w Hc1) as [w1 Hw].
      simpl. unfold bind at 1. rewrite Hw.
      destruct (iter_resets cfg o' w); apply IH; lia.
  - intro os. revert c w. induction os as [|o' os IH]; intros c w Hc Hlen Hf.
    + simpl length in Hlen. unfold max_iterations in *. lia.
    + simpl length in Hlen. inversion Hf as [|? ? Hn Hf']; subst.
      simpl. unfold bind at 1.
      destruct (Z_le_gt_dec (c + 1) max_iterations) as [Hc1|Hc1].
      * assert (Hw : watch_iter cfg c o' w = (Ok (Running (c + 1)), w)).
        { unfold watch_iter.
          replace (c + 1 >? max_iterations) with false
            by (symmetry; rewrite Z.gtb_ltb; apply Z.ltb_ge; lia).
          unfold bind, catch, watch_body.
          apply Z.eqb_neq in Hn. rewrite Hn. reflexivity. }
        rewrite Hw. apply IH; auto; lia.
      * unfold watch_iter.
        replace (c + 1 >? max_iterations) with true by (symmetry; apply Z.gtb_lt; lia).
        reflexivity.
Qed.

(* ------------------------------------------------------------------ *)
(** ** The claim on [Items.insert] *)

Lemma span_fst_forall (p : ascii -> bool) (s : string) :
  forall_str p (fst (span p s)) = true.
Proof.
  induction s as [|c s IH]; simpl; [reflexivity|].
  destruct (p c) eqn:Hc; [|reflexivity].
  destruct (span p s) as [w r]. simpl in *. now rewrite Hc, IH.
Qed.

Lemma search_found {A} (f : string -> option A) (s : string) (m : A) :
  search f s = Some m -> exists s', f s' = Some m.
Proof.
  induction s as [|c s IH]; simpl; intro H.
  - destruct (f EmptyString) eqn:Hf; [|discriminate]. injection H as <-. eauto.
  - destruct (f (String c s)) eqn:Hf; [injection H as <-; eauto|]. auto.
Qed.

Lemma digits_no_space (s : string) : forall_str is_digit s = true -> space s = false.
Proof. intro H. apply word_no_space. exact (forall_str_mono _ _ s digit_is_word H). Qed.

Lemma youtu_be_match_groups (s v : string) (g2 g3 : option string) :
  youtu_be_match s = Some (v, g2, g3) ->
  space v = false /\ (forall ts, g2 = Some ts -> space ts = false).
Proof.
  unfold youtu_be_match. intro H.
  destruct (strip_prefix "https://youtu" s) as [[|c r1]|]; try discriminate.
  destruct (Ascii.eqb c "010"%char); [discriminate|].
  destruct (strip_prefix "be/" r1) as [r2|]; [|discriminate].
  pose proof (span_fst_forall is_word_dash r2) as Hw.
  destruct (span is_word_dash r2) as [w r3]. simpl in Hw.
  destruct (String.eqb w EmptyString); [discriminate|].
  destruct (strip_prefix "?t=" r3) as [r4|].
  - pose proof (span_fst_forall is_digit r4) as Hd.
    destruct (span is_digit r4) as [d r5]. simpl in Hd.
    destruct (String.eqb d EmptyString); injection H as <- <- <-;
      (split; [now apply word_no_space|]); intros ts Hts; try discriminate.
    injection Hts as <-. simpl. now apply digits_no_space.
  - injection H as <- <- <-. split; [now apply word_no_space|]. discriminate.
Qed.

Lemma youtube_music_match_groups (s : string) (g2 g3 : option string) :
  youtube_music_match s = Some (g2, g3) ->
  (forall v, g2 = Some v -> space v = false) /\ (forall v, g3 = Some v -> space v = false).
Proof.
  unfold youtube_music_match. intro H.
  destruct (strip_prefix "https://music.youtube.com/" s) as [r|]; [|discriminate].
  destruct (strip_prefix "watch?v=" r) as [r'|].
  - pose proof (span_fst_forall is_word_dash r') as Hw.
    destruct (span is_word_dash r') as [w r'']. simpl in Hw.
    destruct (String.eqb w EmptyString).
    + destruct (strip_prefix "playlist?list=" r) as [q|]; [|discriminate].
      pose proof (span_fst_forall is_word_dash q) as Hq.
      destruct (span is_word_dash q) as [u q']. simpl in Hq.
      destruct (String.eqb u EmptyString); [discriminate|].
      injection H as <- <-. split; intros v Hv; [discriminate|].
      injection Hv as <-. now apply word_no_space.
    + injection H as <- <-. split; intros v Hv; [|discriminate].
      injection Hv as <-. now apply word_no_space.
  - destruct (strip_prefix "playlist?list=" r) as [q|]; [|discriminate].
    pose proof (span_fst_forall is_word_dash q) as Hq.
    destruct (span is_word_dash q) as [u q']. simpl in Hq.
    destruct (String.eqb u EmptyString); [discriminate|].
    injection H as <- <-. split; intros v Hv; [discriminate|].
    injection Hv as <-. now apply word_no_space.
Qed.

Lemma youtu_be_shape (t : string) : yt_shape (youtu_be t).
Proof.
  unfold youtu_be, yt_shape.
  destruct (space t); [now left|].
  destruct (search youtu_be_match t) as [[[v g2] g3]|] eqn:Hs; [|now left].
  destruct (search_found _ _ _ Hs) as [s' Hm].
  destruct (youtu_be_match_groups _ _ _ _ Hm) as [Hv Hg].
  destruct (String.eqb v EmptyString); [now left|].
  right. destruct g2 as [ts|].
  - specialize (Hg ts eq_refl).
    destruct (String.eqb ts EmptyString).
    + split; [|eexists; reflexivity]. simpl; repeat (rewrite space_app; simpl); rewrite ?Hv; reflexivity.
    + split; [|eexists; reflexivity]. simpl; repeat (rewrite space_app; simpl); rewrite ?Hv, ?Hg; reflexivity.
  - split; [|eexists; reflexivity]. simpl; repeat (rewrite space_app; simpl); rewrite ?Hv; reflexivity.
Qed.

Lemma youtube_music_shape (t : string) : yt_shape (youtube_music t).
Proof.
  unfold youtube_music, yt_shape.
  destruct (space t); [now left|].
  destruct (search youtube_music_match t) as [[g2 g3]|] eqn:Hs; [|now left].
  destruct (search_found _ _ _ Hs) as [s' Hm].
  destruct (youtube_music_match_groups _ _ _ Hm) as [H2 H3].
  destruct g2 as [v|].
  - destruct (String.eqb v EmptyString); [now left|].
    right. split; [|eexists; reflexivity]. simpl; repeat (rewrite space_app; simpl); rewrite (H2 v eq_refl); reflexivity.
  - destruct g3 as [v|]; [|now left].
    destruct (String.eqb v EmptyString); [now left|].
    right. split; [|eexists; reflexivity]. simpl; repeat (rewrite space_app; simpl); rewrite (H3 v eq_refl); reflexivity.
Qed.

Lemma convert_shape (cfg : settings) (t : string) : yt_shape (convert cfg t).
Proof.
  unfold convert. simpl.
  destruct (conv_youtu_be cfg); simpl.
  - destruct (String.eqb (youtu_be t) EmptyString) eqn:He; simpl.
    + destruct (conv_youtube_music cfg); [apply youtube_music_shape|].
      left. now apply String.eqb_eq.
    + apply youtu_be_shape.
  - destruct (conv_youtube_music cfg); [apply youtube_music_shape|now left].
Qed.

Lemma convert_nonempty_input (cfg : settings) (t : string) :
  convert cfg t <> EmptyString -> space t = false /\ t <> EmptyString.
Proof.
  intro H. destruct (space t) eqn:Hs.
  - exfalso. apply H. unfold convert, youtu_be, youtube_music. rewrite Hs.
    destruct (conv_youtu_be cfg), (conv_youtube_music cfg); reflexivity.
  - split; [reflexivity|]. intro Ht. subst t. apply H.
    unfold convert. destruct (conv_youtu_be cfg), (conv_youtube_music cfg); reflexivity.
Qed.

Lemma rstrip_no_space (s : string) : space s = false -> rstrip s = s.
Proof.
  induction s as [|c s IH]; simpl; [reflexivity|].
  intro H. apply orb_false_iff in H as [H1 H2]. rewrite IH by exact H2.
  now rewrite H1, andb_false_r.
Qed.

Lemma rstrip_app (a b : string) :
  space b = false -> b <> EmptyString -> rstrip (a ++ b) = (a ++ b)%string.
Proof.
  intros Hs Hb. induction a as [|c a IH]; simpl; [now apply rstrip_no_space|].
  rewrite IH. destruct (String.eqb (a ++ b) EmptyString) eqn:He; [|reflexivity].
  apply String.eqb_eq in He. destruct a; simpl in He; [congruence|discriminate].
Qed.

Lemma add_ok_shape (cfg : settings) (E : env) (t : string) (w : world) :
  accepted cfg (rstrip t) = true ->
  (exists ti, title_res cfg E (rstrip t) = Ok ti) ->
  exists it rest,
    add cfg E t w = (Ok tt, mkWorld (slice_to (it :: rest) (max_items cfg))
                                    (slice_to (it :: rest) (max_items cfg))
                                    (S (writes w)) (copied w) (menus w))
    /\ text it = rstrip t
    /\ (rest = items w \/ exists pre x post, items w = pre ++ x :: post
                                          /\ text x = rstrip t /\ rest = pre ++ post).
Proof.
  intros Ha [ti Hti]. rewrite add_accepted_unfold by exact Ha.
  destruct (take_first _ (items w)) as [[it rest]|] eqn:Ht.
  - destruct (take_first_some _ _ _ _ Ht) as (pre & post & Hl & Hr & Hx & _).
    apply String.eqb_eq in Hx.
    exists it, rest. split; [reflexivity|]. split; [exact Hx|].
    right. exists pre, it, post. auto.
  - rewrite Hti. exists (from_text E (rstrip t) ti), (items w). auto.
Qed.

Lemma slice_to_two {A} (x y : A) (l : list A) (m : Z) :
  2 <= m -> slice_to (x :: y :: l) m = x :: y :: firstn (Z.to_nat (m - 2)) l.
Proof.
  intro H. rewrite slice_to_nonneg by lia.
  replace (Z.to_nat m) with (S (S (Z.to_nat (m - 2)))) by lia. reflexivity.
Qed.

(** C10: when converters are enabled and one fires, [Items.insert] runs
    [Items.add] on ["Original: " ++ text], then on the converted text,
    then copies the converted text; when both are kept by [Items.add], the
    title step of the converted text raises nothing and [max_items] is at
    least 2, the call returns normally with the converted text at index 0
    and the ["Original: ..."] text at index 1. When no converter fires (or
    converters are disabled), [Items.insert] is [Items.add] on the raw
    text. *)
Theorem insert_converted (cfg : settings) (E : env) (t : string) (w : world) :
  (enable_converters cfg = true -> convert cfg t <> EmptyString ->
   insert cfg E t w =
   (add cfg E ("Original: " ++ t) ;;; add cfg E (convert cfg t) ;;;
    copy_text (convert cfg t)) w
   /\ (accepted cfg ("Original: " ++ t) = true -> accepted cfg (convert cfg t) = true ->
       (exists ti, title_res cfg E (convert cfg t) = Ok ti) -> 2 <= max_items cfg ->
       fst (insert cfg E t w) = Ok tt
       /\ exists o c rest, items (snd (insert cfg E t w)) = c :: o :: rest
                           /\ text c = convert cfg t /\ text o = ("Original: " ++ t)%string))
  /\ (enable_converters cfg = false \/ convert cfg t = EmptyString ->
      insert cfg E t w = add cfg E t w).
Proof.
  split.
  - intros Hen Hc.
    assert (Hins : insert cfg E t w =
                   (add cfg E ("Original: " ++ t) ;;; add cfg E (convert cfg t) ;;;
                    copy_text (convert cfg t)) w).
    { unfold insert. rewrite Hen. apply String.eqb_neq in Hc. rewrite Hc. reflexivity. }
    split; [exact Hins|].
    intros Ho Hcv Hti Hm. rewrite Hins.
    destruct (convert_nonempty_input cfg t Hc) as [Hts Htne].
    assert (Hro : rstrip ("Original: " ++ t) = ("Original: " ++ t)%string)
      by (apply rstrip_app; assumption).
    destruct (convert_shape cfg t) as [Hce|[Hcs [r Hcr]]]; [contradiction|].
    assert (Hrc : rstrip (convert cfg t) = convert cfg t) by (now apply rstrip_no_space).
    destruct (add_ok_shape cfg E ("Original: " ++ t) w) as (o & r1 & Ha1 & Hot & _).
    { now rewrite Hro. }
    { exists EmptyString. rewrite Hro. unfold title_res, get_title.
      destruct (enable_titles cfg); reflexivity. }
    unfold bind. rewrite Ha1.
    set (w1 := mkWorld _ _ _ _ _).
    destruct (add_ok_shape cfg E (convert cfg t) w1) as (c & r2 & Ha2 & Hct & Hr2).
    { now rewrite Hrc. }
    { now rewrite Hrc. }
    rewrite Ha2. unfold copy_text. cbn [fst snd items]. split; [reflexivity|].
    rewrite Hro in Hot. rewrite Hrc in Hct, Hr2.
    assert (Hw1 : items w1 = o :: firstn (Z.to_nat (max_items cfg - 1)) r1).
    { simpl. rewrite slice_to_nonneg by lia.
      replace (Z.to_nat (max_items cfg)) with (S (Z.to_nat (max_items cfg - 1))) by lia.
      reflexivity. }
    assert (Hr2' : exists rest', r2 = o :: rest').
    { destruct Hr2 as [-> | (pre & x & post & Hl & Hx & ->)].
      - rewrite Hw1. eauto.
      - rewrite Hw1 in Hl. destruct pre as [|p pre].
        + injection Hl as Hxo _. subst x. exfalso.
          rewrite Hot, Hcr in Hx. discriminate.
        + injection Hl as Hpo _. subst p. exists (pre ++ post). reflexivity. }
    destruct Hr2' as [rest' ->].
    exists o, c, (firstn (Z.to_nat (max_items cfg - 2)) rest').
    rewrite slice_to_two by exact Hm. auto.
  - intros H. unfold insert.
    destruct (enable_converters cfg); [|reflexivity].
    destruct H as [H|H]; [discriminate|]. rewrite H. reflexivity.
Qed.

(* ------------------------------------------------------------------ *)
(** ** Further properties: deleting and selecting from the menu *)

Lemma py_index_in {A} (l : list A) (i : Z) :
  0 <= i < Z.of_nat (List.length l) -> py_index l i = Some (Z.to_nat i).
Proof.
  intro H. unfold py_index.
  replace (i <? 0) with false by (symmetry; apply Z.ltb_ge; lia).
  replace ((0 <=? i) && (i <? Z.of_nat (List.length l))) with true
    by (symmetry; apply andb_true_iff; split; [apply Z.leb_le|apply Z.ltb_lt]; lia).
  reflexivity.
Qed.

(** [Items.delete(index)]: an index in range, counted from the front when
    non-negative and from the back when negative, removes exactly that item
    and writes the list; any other index raises [IndexError] and changes
    nothing, the items file included. *)
Theorem delete_index (index : Z) (w : world) :
  let n := Z.of_nat (List.length (items w)) in
  let removed k := firstn k (items w) ++ skipn (S k) (items w) in
  (0 <= index < n ->
   delete index w = (Ok tt, mkWorld (removed (Z.to_nat index)) (removed (Z.to_nat index))
                                    (S (writes w)) (copied w) (menus w)))
  /\ (- n <= index < 0 ->
      delete index w = (Ok tt, mkWorld (removed (Z.to_nat (index + n)))
                                       (removed (Z.to_nat (index + n)))
                                       (S (writes w)) (copied w) (menus w)))
  /\ (index < - n \/ n <= index -> delete index w = (Raise ExnIndex, w)).
Proof.
  intros n removed. unfold delete, bind, get_items.
  split; [|split].
  - intro H. rewrite py_index_in by exact H. reflexivity.
  - intro H. unfold py_index. fold n.
    replace (index <? 0) with true by (symmetry; apply Z.ltb_lt; lia).
    replace ((0 <=? index + n) && (index + n <? n)) with true
      by (symmetry; apply andb_true_iff; split; [apply Z.leb_le|apply Z.ltb_lt]; lia).
    reflexivity.
  - intro H. unfold py_index. fold n.
    destruct (index <? 0) eqn:Hneg.
    + apply Z.ltb_lt in Hneg.
      replace ((0 <=? index + n) && (index + n <? n)) with false; [reflexivity|].
      symmetry. apply andb_false_iff. left. apply Z.leb_gt. lia.
    + apply Z.ltb_ge in Hneg.
      replace ((0 <=? index) && (index <? n)) with false; [reflexivity|].
      symmetry. apply andb_false_iff. right. apply Z.ltb_ge. lia.
Qed.

Lemma delete_index_witness :
  delete 1 (mkWorld [mkItem "a" 0 1 ""; mkItem "b" 0 1 ""; mkItem "c" 0 1 ""] [] 0 [] [])
  = (Ok tt, mkWorld [mkItem "a" 0 1 ""; mkItem "c" 0 1 ""] [mkItem "a" 0 1 ""; mkItem "c" 0 1 ""]
                    1 [] []).
Proof.
  destruct (delete_index 1 (mkWorld [mkItem "a" 0 1 ""; mkItem "b" 0 1 ""; mkItem "c" 0 1 ""] [] 0 [] []))
    as [H _].
  apply H. simpl. lia.
Defined.

(** Status code 10 in [Rofi.show] with an index in range: the item at
    that index is removed and written, and the menu is opened again with
    the cursor on the same index. *)
Theorem show_delete_redisplay (cfg : settings) (E : env) (selected index : Z)
    (confirm : string) (rs : list response) (w : world) :
  0 <= index < Z.of_nat (List.length (items w)) ->
  let l' := firstn (Z.to_nat index) (items w) ++ skipn (S (Z.to_nat index)) (items w) in
  show cfg E selected (mkResponse (Some index) 10 confirm :: rs) w
  = show cfg E index rs (mkWorld l' l' (S (writes w)) (copied w) (selected :: menus w)).
Proof.
  intros H l'. simpl. unfold bind at 1, open_menu. unfold dispatch. simpl.
  unfold bind at 1. unfold bind at 1.
  unfold delete, bind, get_items. cbn [items].
  rewrite py_index_in by (simpl; exact H). reflexivity.
Qed.

Lemma show_delete_redisplay_witness :
  menus (snd (show default_settings (mkEnv 0 (fun _ => "none"%string) (fun _ => None)) 0
                [mkResponse (Some 2) 10 ""; mkResponse None 0 ""]
                (mkWorld [mkItem "a" 0 1 ""; mkItem "b" 0 1 ""; mkItem "c" 0 1 "";
                          mkItem "d" 0 1 ""; mkItem "e" 0 1 ""] [] 0 [] [])))
  = [2; 0].
Proof.
  rewrite (show_delete_redisplay default_settings (mkEnv 0 (fun _ => "none"%string) (fun _ => None))
             0 2 "" [mkResponse None 0 ""]
             (mkWorld [mkItem "a" 0 1 ""; mkItem "b" 0 1 ""; mkItem "c" 0 1 "";
                       mkItem "d" 0 1 ""; mkItem "e" 0 1 ""] [] 0 [] [])).
  - reflexivity.
  - simpl. lia.
Defined.

(** A status code outside 10..19 (plain acceptance) with an index in
    range: [Rofi.show] copies the text of that item and returns; the list,
    the items file and the number of writes are unchanged. *)
Theorem show_select_copies (cfg : settings) (E : env) (selected index code : Z)
    (confirm : string) (rs : list response) (w : world) (it : item) :
  (code < 10 \/ 19 < code) ->
  0 <= index < Z.of_nat (List.length (items w)) ->
  nth_error (items w) (Z.to_nat index) = Some it ->
  show cfg E selected (mkResponse (Some index) code confirm :: rs) w
  = (Ok tt, mkWorld (items w) (disk w) (writes w) (text it :: copied w) (selected :: menus w)).
Proof.
  intros Hc Hi Hn. simpl. unfold bind at 1, open_menu. unfold dispatch. cbn [resp_ans resp_code].
  replace (code =? 10) with false by (symmetry; apply Z.eqb_neq; lia).
  replace ((11 <=? code) && (code <=? 18)) with false
    by (symmetry; apply andb_false_iff; destruct Hc; [left; apply Z.leb_gt | right; apply Z.leb_gt]; lia).
  replace (code =? 19) with false by (symmetry; apply Z.eqb_neq; lia).
  unfold select, bind, get_items. cbn [items].
  rewrite py_index_in by (simpl; exact Hi). cbn [items]. rewrite Hn. reflexivity.
Qed.

Lemma show_select_copies_witness :
  show default_settings (mkEnv 0 (fun _ => "none"%string) (fun _ => None)) 0
       [mkResponse (Some 1) 0 ""] (mkWorld [mkItem "a" 0 1 ""; mkItem "b" 0 1 ""] [] 0 [] [])
  = (Ok tt, mkWorld [mkItem "a" 0 1 ""; mkItem "b" 0 1 ""] [] 0 ["b"%string] [0]).
Proof.
  apply (show_select_copies default_settings (mkEnv 0 (fun _ => "none"%string) (fun _ => None))
           0 1 0 "" [] (mkWorld [mkItem "a" 0 1 ""; mkItem "b" 0 1 ""] [] 0 [] [])
           (mkItem "b" 0 1 "")).
  - left. lia.
  - simpl. lia.
  - reflexivity.
Defined.

(* ------------------------------------------------------------------ *)
(** ** Further properties: titles, repeated inserts, joins *)

(** [Utils.get_title] answers the empty title, without fetching the page
    (whatever the fetch would do, a failure included), unless the text
    starts with [https://], has no whitespace and is reported as
    [text/html]. *)
Theorem get_title_no_fetch (E : env) (t : string) (w : world) :
  strip_prefix "https://" t = None \/ space t = true
  \/ env_url_type E t <> "text/html"%string ->
  get_title E t w = (Ok EmptyString, w).
Proof.
  intro H. unfold get_title.
  destruct (strip_prefix "https://" t) eqn:Hp; [|reflexivity].
  destruct (space t) eqn:Hs; [reflexivity|]. simpl.
  destruct H as [H|[H|H]]; [discriminate|discriminate|].
  apply String.eqb_neq in H. rewrite H. reflexivity.
Qed.

Lemma get_title_no_fetch_witness :
  get_title (mkEnv 0 (fun _ => "text/html"%string) (fun _ => None)) "https://a b"
    (mkWorld [] [] 0 [] []) = (Ok EmptyString, mkWorld [] [] 0 [] []).
Proof. apply get_title_no_fetch. right. left. reflexivity. Defined.

(** Inserting again the text just inserted, at any later time, leaves the
    list as it is (the item keeps its date and title) and only writes the
    file once more. *)
Theorem add_repeat (cfg : settings) (E E' : env) (t : string) (w : world) :
  accepted cfg (rstrip t) = true ->
  (exists ti, title_res cfg E (rstrip t) = Ok ti) ->
  1 <= max_items cfg ->
  let w1 := snd (add cfg E t w) in
  add cfg E' t w1 = (Ok tt, mkWorld (items w1) (items w1) (S (writes w1)) (copied w1) (menus w1)).
Proof.
  intros Ha Ht Hm w1.
  destruct (add_ok_shape cfg E t w Ha Ht) as (it & rest & Hadd & Hit & _).
  subst w1. rewrite Hadd. cbn [snd items writes copied menus].
  rewrite add_accepted_unfold by exact Ha. cbn [items].
  rewrite slice_to_nonneg by lia.
  replace (Z.to_nat (max_items cfg)) with (S (Z.to_nat (max_items cfg - 1))) by lia.
  simpl. rewrite Hit, String.eqb_refl.
  rewrite slice_to_nonneg by lia.
  replace (Z.to_nat (max_items cfg)) with (S (Z.to_nat (max_items cfg - 1))) by lia.
  simpl. rewrite firstn_firstn, Nat.min_id. reflexivity.
Qed.

Lemma add_repeat_witness :
  let E := mkEnv 0 (fun _ => "none"%string) (fun _ => None) in
  let w1 := snd (add default_settings E "x" (mkWorld [] [] 0 [] [])) in
  add default_settings E "x" w1
  = (Ok tt, mkWorld (items w1) (items w1) (S (writes w1)) (copied w1) (menus w1)).
Proof.
  apply add_repeat.
  - vm_compute. reflexivity.
  - exists EmptyString. vm_compute. reflexivity.
  - vm_compute. discriminate.
Defined.

Lemma slice_bound_past (i : Z) (n : nat) : Z.of_nat n <= i -> slice_bound i n = n.
Proof.
  intro H. unfold slice_bound.
  replace (i <? 0) with false by (symmetry; apply Z.ltb_ge; lia). lia.
Qed.

(** [Items.join] at an index past the end of the list (Python slices are
    clamped): the list is unchanged, it is written, and the empty string
    is copied to the clipboard. *)
Theorem join_past_end (cfg : settings) (E : env) (index n : Z) (w : world) :
  Z.of_nat (List.length (items w)) <= index -> 0 <= n ->
  join cfg E index n w
  = (Ok tt, mkWorld (items w) (items w) (S (writes w)) (EmptyString :: copied w) (menus w)).
Proof.
  intros Hi Hn. unfold join, bind, get_items.
  unfold slice, del_slice.
  rewrite !slice_bound_past by lia.
  rewrite Nat.sub_diag, Nat.max_id, firstn_skipn. simpl firstn.
  assert (Hs : String.concat " " (map (fun it => strip (text it))
                 (if reverse_join cfg then rev [] else [])) = EmptyString)
    by (destruct (reverse_join cfg); reflexivity).
  rewrite Hs. reflexivity.
Qed.

Lemma join_past_end_witness :
  join default_settings (mkEnv 0 (fun _ => "none"%string) (fun _ => None)) 5 2
       (mkWorld [mkItem "a" 0 1 ""] [] 0 [] [])
  = (Ok tt, mkWorld [mkItem "a" 0 1 ""] [mkItem "a" 0 1 ""] 1 [EmptyString] []).
Proof. apply join_past_end; simpl; lia. Defined.

Lemma add_keeps_copied (cfg : settings) (E : env) (t : string) (w : world) :
  copied (snd (add cfg E t w)) = copied w.
Proof.
  destruct (accepted cfg (rstrip t)) eqn:Ha.
  - rewrite add_accepted_unfold by exact Ha.
    destruct (take_first _ (items w)) as [[it rest]|]; [reflexivity|].
    destruct (title_res cfg E (rstrip t)); reflexivity.
  - rewrite add_rejected by exact Ha. reflexivity.
Qed.

(** When [Items.join] returns normally on [n] items in range, the text it
    copies to the clipboard is the stripped texts of those items joined
    by single spaces, in list order, or in reverse order when
    [reverse_join] is set; this holds whether or not the merged item is
    kept in the list. *)
Theorem join_copies_merged (cfg : settings) (E : env) (index n : Z) (w : world) :
  0 <= index -> 0 <= n -> index + n <= Z.of_nat (List.length (items w)) ->
  fst (join cfg E index n w) = Ok tt ->
  let src := firstn (Z.to_nat n) (skipn (Z.to_nat index) (items w)) in
  copied (snd (join cfg E index n w))
  = String.concat " " (map (fun it => strip (text it))
                           (if reverse_join cfg then rev src else src)) :: copied w.
Proof.
  intros Hi Hn Hlen Hok src.
  destruct (slice_in (items w) index n Hi Hn Hlen) as [Hsl Hdel].
  set (s := String.concat " " (map (fun it => strip (text it))
                                   (if reverse_join cfg then rev src else src))).
  set (w0 := mkWorld (firstn (Z.to_nat index) (items w) ++ skipn (Z.to_nat (index + n)) (items w))
                     (disk w) (writes w) (copied w) (menus w)).
  assert (Hj : join cfg E index n w =
               match add cfg E s w0 with
               | (Ok _, w2) => (write ;;; copy_text s) w2
               | (Raise e, w2) => (Raise e, w2)
               end).
  { unfold join, bind at 1, get_items. rewrite Hsl, Hdel. reflexivity. }
  rewrite Hj in Hok |- *.
  pose proof (add_keeps_copied cfg E s w0) as Hc.
  destruct (add cfg E s w0) as [[u|e] w2].
  - simpl in Hc |- *. now rewrite Hc.
  - discriminate.
Qed.

Lemma join_copies_merged_witness :
  copied (snd (join (mkSettings 2000 5000 true true true true true)
                    (mkEnv 0 (fun _ => "none"%string) (fun _ => None)) 0 2
                    (mkWorld [mkItem " a " 0 1 ""; mkItem "b" 0 1 ""] [] 0 [] [])))
  = ["b a"%string].
Proof.
  apply (join_copies_merged (mkSettings 2000 5000 true true true true true)
           (mkEnv 0 (fun _ => "none"%string) (fun _ => None)) 0 2
           (mkWorld [mkItem " a " 0 1 ""; mkItem "b" 0 1 ""] [] 0 [] [])); try (simpl; lia).
  vm_compute. reflexivity.
Defined.

(* ------------------------------------------------------------------ *)
(** ** Further properties: the converters *)

Lemma not_starts_span (p : ascii -> bool) (w r : string) :
  forall_str p w = true -> starts_with p r = false -> span p (w ++ r) = (w, r).
Proof.
  intros Hw Hr. apply span_app; [exact Hw|].
  destruct r; simpl in *; [reflexivity|]. now rewrite Hr.
Qed.

(** [Converters.youtu_be] on [https://youtu.be/<id><rest>] where [<rest>]
    has no whitespace, does not continue the id and does not start with a
    timestamp [?t=<digits>] (for instance a share parameter [?si=...]):
    the result is the watch URL of [<id>] alone, the rest is dropped. *)
Theorem youtu_be_drops_rest (vid rest : string) :
  vid <> EmptyString -> forall_str is_word_dash vid = true ->
  space rest = false -> starts_with is_word_dash rest = false ->
  starts_with_timestamp rest = false ->
  youtu_be ("https://youtu.be/" ++ vid ++ rest)
  = ("https://www.youtube.com/watch?v=" ++ vid)%string.
Proof.
  intros Hv Hvw Hs Hr Ht. unfold youtu_be.
  replace (space ("https://youtu.be/" ++ vid ++ rest)) with false.
  2:{ symmetry. rewrite !space_app, (word_no_space vid), Hs by assumption. reflexivity. }
  assert (Hm : youtu_be_match ("https://youtu.be/" ++ vid ++ rest) = Some (vid, None, None)).
  { unfold starts_with_timestamp in Ht.
    destruct (strip_prefix "?t=" rest) as [r|] eqn:Ep; simpl in Ep;
      unfold youtu_be_match; simpl;
      rewrite not_starts_span by assumption;
      apply String.eqb_neq in Hv; rewrite Hv; simpl; rewrite Ep; [|reflexivity].
    destruct r as [|c r]; simpl in Ht |- *; [reflexivity|]. rewrite Ht. reflexivity. }
  rewrite (search_hit _ _ _ Hm).
  apply String.eqb_neq in Hv. rewrite Hv. reflexivity.
Qed.

Lemma youtu_be_drops_rest_witness :
  youtu_be "https://youtu.be/abc123?si=XyZ" = "https://www.youtube.com/watch?v=abc123"%string.
Proof. apply (youtu_be_drops_rest "abc123" "?si=XyZ"); (discriminate || reflexivity). Defined.

(** [Converters.youtube_music] on a music watch URL
    [https://music.youtube.com/watch?v=<id><rest>], [<rest>] whitespace
    free and not continuing the id: the YouTube watch URL of [<id>]. *)
Theorem youtube_music_watch (vid rest : string) :
  vid <> EmptyString -> forall_str is_word_dash vid = true ->
  space rest = false -> starts_with is_word_dash rest = false ->
  youtube_music ("https://music.youtube.com/watch?v=" ++ vid ++ rest)
  = ("https://www.youtube.com/watch?v=" ++ vid)%string.
Proof.
  intros Hv Hvw Hs Hr. unfold youtube_music.
  replace (space ("https://music.youtube.com/watch?v=" ++ vid ++ rest)) with false.
  2:{ symmetry. rewrite !space_app, (word_no_space vid), Hs by assumption. reflexivity. }
  assert (Hm : youtube_music_match ("https://music.youtube.com/watch?v=" ++ vid ++ rest)
               = Some (Some vid, None)).
  { unfold youtube_music_match. simpl.
    rewrite not_starts_span by assumption.
    apply String.eqb_neq in Hv. rewrite Hv. reflexivity. }
  rewrite (search_hit _ _ _ Hm).
  apply String.eqb_neq in Hv. rewrite Hv. reflexivity.
Qed.

Lemma youtube_music_watch_witness :
  youtube_music "https://music.youtube.com/watch?v=a_b-9&si=q"
  = "https://www.youtube.com/watch?v=a_b-9"%string.
Proof. apply (youtube_music_watch "a_b-9" "&si=q"); (discriminate || reflexivity). Defined.

(** [Converters.youtube_music] on a music playlist URL
    [https://music.youtube.com/playlist?list=<id><rest>]: the YouTube
    playlist URL of [<id>]. *)
Theorem youtube_music_playlist (pid rest : string) :
  pid <> EmptyString -> forall_str is_word_dash pid = true ->
  space rest = false -> starts_with is_word_dash rest = false ->
  youtube_music ("https://music.youtube.com/playlist?list=" ++ pid ++ rest)
  = ("https://www.youtube.com/playlist?list=" ++ pid)%string.
Proof.
  intros Hv Hvw Hs Hr. unfold youtube_music.
  replace (space ("https://music.youtube.com/playlist?list=" ++ pid ++ rest)) with false.
  2:{ symmetry. rewrite !space_app, (word_no_space pid), Hs by assumption. reflexivity. }
  assert (Hm : youtube_music_match ("https://music.youtube.com/playlist?list=" ++ pid ++ rest)
               = Some (None, Some pid)).
  { unfold youtube_music_match. simpl.
    rewrite not_starts_span by assumption.
    apply String.eqb_neq in Hv. rewrite Hv. reflexivity. }
  rewrite (search_hit _ _ _ Hm).
  apply String.eqb_neq in Hv. rewrite Hv. reflexivity.
Qed.

Lemma youtube_music_playlist_witness :
  youtube_music "https://music.youtube.com/playlist?list=XYZ"
  = "https://www.youtube.com/playlist?list=XYZ"%string.
Proof.
  rewrite <- (append_empty_r "XYZ").
  apply (youtube_music_playlist "XYZ" ""); (discriminate || reflexivity).
Defined.

(** [Items.insert] on a text containing whitespace converts nothing: it
    is [Items.add] on the text as it is, whatever converters are enabled. *)
Theorem insert_whitespace (cfg : settings) (E : env) (t : string) (w : world) :
  space t = true -> insert cfg E t w = add cfg E t w.
Proof.
  intro H.
  assert (Hc : convert cfg t = EmptyString).
  { unfold convert, youtu_be, youtube_music. rewrite H.
    destruct (conv_youtu_be cfg), (conv_youtube_music cfg); reflexivity. }
  unfold insert. rewrite Hc. destruct (enable_converters cfg); reflexivity.
Qed.

Lemma insert_whitespace_witness :
  insert default_settings (mkEnv 0 (fun _ => "none"%string) (fun _ => None))
    "https://youtu.be/abc x" (mkWorld [] [] 0 [] [])
  = add default_settings (mkEnv 0 (fun _ => "none"%string) (fun _ => None))
    "https://youtu.be/abc x" (mkWorld [] [] 0 [] []).
Proof. apply insert_whitespace. reflexivity. Defined.

Lemma youtube_music_match_g2 (s v : string) (g3 : option string) :
  youtube_music_match s = Some (Some v, g3) -> v <> EmptyString.
Proof.
  unfold youtube_music_match. intro H.
  destruct (strip_prefix "https://music.youtube.com/" s) as [r|]; [|discriminate].
  destruct (strip_prefix "watch?v=" r) as [r'|].
  - destruct (span is_word_dash r') as [w r''].
    destruct (String.eqb w EmptyString) eqn:Hw.
    + destruct (strip_prefix "playlist?list=" r) as [q|]; [|discriminate].
      destruct (span is_word_dash q) as [u q'].
      destruct (String.eqb u EmptyString); discriminate.
    + injection H as <- _. now apply String.eqb_neq.
  - destruct (strip_prefix "playlist?list=" r) as [q|]; [|discriminate].
    destruct (span is_word_dash q) as [u q'].
    destruct (String.eqb u EmptyString); discriminate.
Qed.

(** [convert_text] of [converts.py] agrees with [Converters.youtube_music]
    of [clipton.py]: it returns the conversion when that converter fires
    (and is enabled), and the text unchanged otherwise. *)
Theorem convert_text_youtube_music (music : bool) (t : string) :
  convert_text music t
  = if music && negb (String.eqb (youtube_music t) EmptyString) then youtube_music t else t.
Proof.
  unfold convert_text, youtube_music.
  destruct (space t); [destruct music; reflexivity|].
  destruct music; [|reflexivity]. simpl.
  destruct (search youtube_music_match t) as [[g2 g3]|] eqn:Hs; [|reflexivity].
  destruct g2 as [v|].
  - destruct (search_found _ _ _ Hs) as [s' Hm].
    apply youtube_music_match_g2 in Hm. apply String.eqb_neq in Hm. rewrite Hm.
    reflexivity.
  - destruct g3 as [p|]; [|reflexivity].
    destruct (String.eqb p EmptyString); reflexivity.
Qed.

(* ------------------------------------------------------------------ *)
(** ** Further properties: the watcher and the age column *)

Lemma watch_iter_idle (cfg : settings) (c : Z) (o : iter_obs) (w : world) :
  c + 1 <= max_iterations -> idle o ->
  watch_iter cfg c o w = (Ok (Running (c + 1)), w).
Proof.
  intros Hc Hi. unfold watch_iter.
  replace (c + 1 >? max_iterations) with false
    by (symmetry; rewrite Z.gtb_ltb; apply Z.ltb_ge; lia).
  unfold bind, catch, watch_body.
  destruct Hi as [Hn|Hi]; [apply Z.eqb_neq in Hn; rewrite Hn; reflexivity|].
  destruct (obs_notify o =? 0); [|reflexivity].
  destruct (obs_clip o) as [[rc clip]|]; [|reflexivity].
  destruct Hi as [Hr | ->]; [apply Z.eqb_neq in Hr; rewrite Hr; reflexivity|].
  destruct (rc =? 0); reflexivity.
Qed.

(** [Watcher.start] run from a counter [c] (between 0 and
    [max_iterations]) over iterations that find no new clipboard text
    never touches the store, the items file or the clipboard; it is still
    running with counter [c + n] after [n] such iterations while
    [c + n <= max_iterations], and has exited otherwise. *)
Theorem watch_idle (cfg : settings) (c : Z) (os : list iter_obs) (w : world) :
  0 <= c <= max_iterations -> Forall idle os ->
  watch cfg c os w
  = (Ok (if c + Z.of_nat (List.length os) <=? max_iterations
         then Running (c + Z.of_nat (List.length os)) else Exited), w).
Proof.
  revert c. induction os as [|o os IH]; intros c Hc Hf.
  - simpl. replace (c + 0) with c by lia.
    replace (c <=? max_iterations) with true by (symmetry; apply Z.leb_le; lia).
    reflexivity.
  - inversion Hf as [|? ? Hi Hf']; subst.
    simpl watch. unfold bind at 1.
    destruct (Z_le_gt_dec (c + 1) max_iterations) as [Hc1|Hc1].
    + rewrite (watch_iter_idle cfg c o w Hc1 Hi).
      rewrite IH by (assumption || lia).
      simpl length. rewrite Nat2Z.inj_succ.
      replace (c + 1 + Z.of_nat (List.length os)) with (c + Z.succ (Z.of_nat (List.length os)))
        by lia.
      reflexivity.
    + unfold watch_iter.
      replace (c + 1 >? max_iterations) with true by (symmetry; apply Z.gtb_lt; lia).
      simpl length.
      replace (c + Z.of_nat (S (List.length os)) <=? max_iterations) with false
        by (symmetry; apply Z.leb_gt; lia).
      reflexivity.
Qed.

Lemma watch_idle_witness :
  (0 <= 98 <= max_iterations /\
   Forall idle [mkObs 1 None (mkEnv 0 (fun _ => "none"%string) (fun _ => None));
                mkObs 0 (Some (0, EmptyString)) (mkEnv 0 (fun _ => "none"%string) (fun _ => None));
                mkObs 0 (Some (1, "x"%string)) (mkEnv 0 (fun _ => "none"%string) (fun _ => None))]) /\
  watch default_settings 98
    [mkObs 1 None (mkEnv 0 (fun _ => "none"%string) (fun _ => None));
     mkObs 0 (Some (0, EmptyString)) (mkEnv 0 (fun _ => "none"%string) (fun _ => None));
     mkObs 0 (Some (1, "x"%string)) (mkEnv 0 (fun _ => "none"%string) (fun _ => None))]
    (mkWorld [] [] 0 [] [])
  = (Ok Exited, mkWorld [] [] 0 [] []).
Proof.
  assert (H : 0 <= 98 <= max_iterations /\
   Forall idle [mkObs 1 None (mkEnv 0 (fun _ => "none"%string) (fun _ => None));
                mkObs 0 (Some (0, EmptyString)) (mkEnv 0 (fun _ => "none"%string) (fun _ => None));
                mkObs 0 (Some (1, "x"%string)) (mkEnv 0 (fun _ => "none"%string) (fun _ => None))]).
  { split; [unfold max_iterations; lia|].
    apply Forall_cons; [left; simpl; discriminate|].
    apply Forall_cons; [right; simpl; right; reflexivity|].
    apply Forall_cons; [right; simpl; left; discriminate|].
    apply Forall_nil. }
  split; [exact H|].
  destruct H as [Hc Hf].
  rewrite (watch_idle default_settings 98 _ _ Hc Hf). reflexivity.
Defined.

Lemma round_div_60_neg (d : Z) : round_div d 60 < 0 <-> d < -30.
Proof.
  unfold round_div.
  pose proof (Z.div_mod d 60 ltac:(lia)) as Hd.
  pose proof (Z.mod_pos_bound d 60 ltac:(lia)) as Hr.
  set (q := d / 60) in *. set (r := d mod 60) in *.
  destruct (2 * r <? 60) eqn:H1; [apply Z.ltb_lt in H1; lia|apply Z.ltb_ge in H1].
  destruct (60 <? 2 * r) eqn:H2; [apply Z.ltb_lt in H2; lia|apply Z.ltb_ge in H2].
  destruct (Z.even q) eqn:He; [|lia].
  destruct (Z.eq_dec q (-1)) as [Hq|Hq]; [rewrite Hq in He; discriminate|lia].
Qed.

Lemma get_timeago_none (m : Z) : get_timeago m = None <-> m < 0.
Proof.
  unfold get_timeago.
  destruct (1440 <=? m) eqn:H1; [apply Z.leb_le in H1; split; [discriminate|lia]|apply Z.leb_gt in H1].
  destruct (60 <=? m) eqn:H2; [apply Z.leb_le in H2; split; [discriminate|lia]|apply Z.leb_gt in H2].
  destruct (1 <=? m) eqn:H3; [apply Z.leb_le in H3; split; [discriminate|lia]|apply Z.leb_gt in H3].
  destruct (m =? 0) eqn:H4; [apply Z.eqb_eq in H4; split; [discriminate|lia]|apply Z.eqb_neq in H4].
  split; [intros _; lia|reflexivity].
Qed.

(** The age column of [Rofi.show] ([Utils.get_timeago] of the rounded
    minutes since the item's date) has no value, so that Python raises
    [UnboundLocalError], exactly for the items dated more than 30 seconds
    after the current time. *)
Theorem item_timeago_future (date_now : Z) (it : item) :
  item_timeago date_now it = None <-> date_now + 30 < date it.
Proof.
  unfold item_timeago. rewrite get_timeago_none, round_div_60_neg. lia.
Qed.

(* ------------------------------------------------------------------ *)
(** ** Further properties: the store invariant *)

Lemma drop_middle {A} (l : list A) (a c : nat) :
  (a <= c)%nat -> exists y, l = firstn a l ++ y ++ skipn c l.
Proof.
  intro Hac. exists (firstn (c - a)%nat (skipn a l)).
  rewrite <- (firstn_skipn a l) at 1. f_equal.
  rewrite <- (firstn_skipn (c - a)%nat (skipn a l)) at 1. f_equal.
  rewrite skipn_skipn. f_equal. lia.
Qed.

Lemma nodup_drop_middle {A} (x y z : list A) :
  NoDup (x ++ y ++ z) -> NoDup (x ++ z).
Proof.
  induction x as [|a x IH]; simpl; intro H.
  - now apply NoDup_app_remove_l in H.
  - inversion H as [|? ? Hn Hd]; subst. constructor; [|now apply IH].
    intro Hin. apply Hn. apply in_app_or in Hin as [Hin|Hin]; apply in_or_app; [now left|].
    right. apply in_or_app. now right.
Qed.

Lemma store_inv_drop (cfg : settings) (l : list item) (a c : nat) :
  (a <= c)%nat -> store_inv cfg l -> store_inv cfg (firstn a l ++ skipn c l).
Proof.
  intros Hac (Hlen & Hacc & Hnd). destruct (drop_middle l a c Hac) as [y Hy].
  rewrite Hy in Hlen, Hacc, Hnd.
  rewrite !length_app in Hlen. rewrite !map_app in Hnd.
  apply Forall_app in Hacc as [H1 H2]. apply Forall_app in H2 as [_ H3].
  split; [rewrite length_app; lia|]. split; [now apply Forall_app|].
  rewrite map_app. now apply nodup_drop_middle with (y := map text y).
Qed.

Lemma store_inv_nil (cfg : settings) (l : list item) :
  store_inv cfg l -> store_inv cfg [].
Proof.
  intro H. pose proof (store_inv_max_nonneg _ _ H).
  split; [simpl; lia|]. split; constructor.
Qed.

(** Every operation of [Items] that changes the list keeps the invariant
    [Items.add] establishes (at most [max_items] items, all of them
    accepted texts, no two with the same text): [Items.insert],
    [Items.delete], [Items.delete_all], [Items.confirm_delete] and
    [Items.join], whether they return or raise. *)
Theorem items_ops_preserve_store_inv (cfg : settings) (E : env) (w : world) :
  store_inv cfg (items w) ->
  (forall t, store_inv cfg (items (snd (insert cfg E t w))))
  /\ (forall index, store_inv cfg (items (snd (delete index w))))
  /\ store_inv cfg (items (snd (delete_all w)))
  /\ (forall ans, store_inv cfg (items (snd (confirm_delete ans w))))
  /\ (forall index num, store_inv cfg (items (snd (join cfg E index num w)))).
Proof.
  intro Hinv.
  assert (Hall : store_inv cfg (items (snd (delete_all w)))) by exact (store_inv_nil _ _ Hinv).
  split; [|split; [|split; [exact Hall|split]]].
  - intro t. unfold insert.
    destruct (enable_converters cfg); [|now apply add_preserves_store_inv].
    destruct (negb (String.eqb (convert cfg t) EmptyString)); [|now apply add_preserves_store_inv].
    unfold bind.
    pose proof (add_preserves_store_inv cfg E ("Original: " ++ t) w Hinv) as H1.
    destruct (add cfg E ("Original: " ++ t) w) as [[u|e] w1]; [|exact H1].
    pose proof (add_preserves_store_inv cfg E (convert cfg t) w1 H1) as H2.
    destruct (add cfg E (convert cfg t) w1) as [[u'|e'] w2]; exact H2.
  - intro index. unfold delete, bind, get_items. cbn [fst snd].
    destruct (py_index (items w) index) as [k|]; [|exact Hinv].
    apply store_inv_drop; [lia|exact Hinv].
  - intro ans. unfold confirm_delete.
    destruct (String.eqb ans "Yes"); [exact Hall|exact Hinv].
  - intros index num. unfold join, bind, get_items, set_items. cbn [fst snd items].
    set (s := String.concat " " _).
    assert (H0 : store_inv cfg (del_slice (items w) index (index + num))).
    { unfold del_slice. apply store_inv_drop; [lia|exact Hinv]. }
    pose proof (add_preserves_store_inv cfg E s
                  (mkWorld (del_slice (items w) index (index + num)) (disk w) (writes w)
                     (copied w) (menus w)) H0) as H1.
    destruct (add cfg E s _) as [[u|e] w1]; exact H1.
Qed.

Lemma items_ops_preserve_store_inv_witness :
  store_inv default_settings [mkItem "a" 0 1 ""; mkItem "b" 0 1 ""] /\
  store_inv default_settings
    (items (snd (join default_settings (mkEnv 0 (fun _ => "none"%string) (fun _ => None)) 0 2
       (mkWorld [mkItem "a" 0 1 ""; mkItem "b" 0 1 ""] [] 0 [] [])))).
Proof.
  assert (H : store_inv default_settings [mkItem "a" 0 1 ""; mkItem "b" 0 1 ""]).
  { split; [vm_compute; discriminate|]. split.
    - repeat constructor.
    - simpl. constructor; [simpl; intros [H|H]; [discriminate|exact H]|].
      constructor; [intros []|constructor]. }
  split; [exact H|].
  exact (proj2 (proj2 (proj2 (proj2 (items_ops_preserve_store_inv default_settings
           (mkEnv 0 (fun _ => "none"%string) (fun _ => None))
           (mkWorld [mkItem "a" 0 1 ""; mkItem "b" 0 1 ""] [] 0 [] []) H)))) 0 2).
Defined.
